(** * PONS network simulator: the [NetSim] driver of [pons/simulation.py]

    A shallow embedding of [NetSim.setup], [NetSim.using_contactplan],
    [NetSim.contact_logger] and [NetSim.run], together with the part of the
    simpy event loop they drive and, of [tools/ponsanim/ponsanim.py], the
    progress bar, the drawing of a node and the CONFIG, LINK and ROUTER
    branches of [main].

    Python numbers are exact rationals ([Q]) where the source mixes ints and
    floats, and integers ([Z]) where it only uses ints.  Python dicts with
    string keys are [gmap string _]; operations that raise in Python return
    in the [result] type below. *)

From Stdlib Require Import ZArith QArith Qminmax Qround Lqa Lia List Ascii.
From stdpp Require Import base option list gmap strings.

Local Open Scope Z_scope.

(** ** Python values, exceptions and dict access *)

Module Py.

(** The exceptions the modelled code can raise. *)
Inductive exn : Type :=
| Exception (msg : string)
| KeyError (key : string)
| ZeroDivisionError
| ValueError (msg : string)
| TypeError (msg : string)
| RuntimeError (msg : string)
| ConfigError (msg : string).     (* named by the specification; raised nowhere in the sources *)

(** Outcome of a Python computation: a value or a raised exception. *)
Inductive result (A : Type) : Type :=
| Ok (a : A)
| Raise (e : exn).
Arguments Ok {A} a.
Arguments Raise {A} e.

Definition bind {A B : Type} (r : result A) (k : A -> result B) : result B :=
  match r with
  | Ok a => k a
  | Raise e => Raise e
  end.

Notation "'let*' x ':=' r 'in' k" := (bind r (fun x => k))
  (at level 10, x name, r at level 100, k at level 200).

(** The values that occur in scenario configurations, generator
    configurations and event-log payloads. *)
Inductive value : Type :=
| VNone
| VBool (b : bool)
| VInt (z : Z)
| VNum (q : Q)
| VStr (s : string)
| VPair (a b : Z)
| VList (l : list string).

(** Python truthiness, as used by [if config.get(...)]. *)
Definition truthy (v : value) : bool :=
  match v with
  | VNone => false
  | VBool b => b
  | VInt z => negb (z =? 0)
  | VNum q => negb (Qeq_bool q 0)
  | VStr s => negb (String.eqb s "")
  | VPair _ _ => true
  | VList l => match l with [] => false | _ => true end
  end.

(** [d.get(k, default)] *)
Definition dict_get {V : Type} (d : gmap string V) (k : string) (default : V) : V :=
  match d !! k with
  | Some v => v
  | None => default
  end.

(** [d[k]]: raises [KeyError] when the key is missing. *)
Definition getitem {V : Type} (d : gmap string V) (k : string) : result V :=
  match d !! k with
  | Some v => Ok v
  | None => Raise (KeyError k)
  end.

(** [del d[k]]: raises [KeyError] when the key is missing. *)
Definition delitem {V : Type} (d : gmap string V) (k : string) : result (gmap string V) :=
  match d !! k with
  | Some _ => Ok (delete k d)
  | None => Raise (KeyError k)
  end.

(** [a / b]: true division, raising on a zero divisor. *)
Definition truediv (a b : Q) : result Q :=
  if Qeq_bool b 0 then Raise ZeroDivisionError else Ok (a / b)%Q.

(** [a > 0] *)
Definition gt0 (a : Q) : bool := negb (Qle_bool a 0).

(** [int(x)]: truncation toward zero. *)
Definition int_of (q : Q) : Z := Z.quot (Qnum q) (Zpos (Qden q)).

End Py.

Import Py.

(** ** Routing statistics and the end-of-run report *)

Module Stats.

(** [self.routing_stats] as built by [NetSim.__init__]. *)
Definition initial_routing_stats : gmap string Q :=
  list_to_map
    [("created", 0%Q); ("delivered", 0%Q); ("dropped", 0%Q); ("hops", 0%Q);
     ("latency", 0%Q); ("started", 0%Q); ("relayed", 0%Q); ("removed", 0%Q);
     ("aborted", 0%Q); ("dups", 0%Q); ("latency_avg", 0%Q);
     ("delivery_prob", 0%Q); ("hops_avg", 0%Q); ("overhead_ratio", 0%Q)].

(** [self.net_stats] as built by [NetSim.__init__]. *)
Definition initial_net_stats : gmap string Q :=
  list_to_map [("tx", 0%Q); ("rx", 0%Q); ("drop", 0%Q); ("loss", 0%Q)].

(** The three averages guarded by [if self.routing_stats["delivered"] > 0]. *)
Definition derive_averages (rs : gmap string Q) : result (gmap string Q) :=
  let* delivered := getitem rs "delivered" in
  if gt0 delivered then
    let* latency := getitem rs "latency" in
    let* delivered1 := getitem rs "delivered" in
    let* latency_avg := truediv latency delivered1 in
    let rs1 := <["latency_avg" := latency_avg]> rs in
    let* hops := getitem rs1 "hops" in
    let* delivered2 := getitem rs1 "delivered" in
    let* hops_avg := truediv hops delivered2 in
    let rs2 := <["hops_avg" := hops_avg]> rs1 in
    let* relayed := getitem rs2 "relayed" in
    let* delivered3 := getitem rs2 "delivered" in
    let* delivered4 := getitem rs2 "delivered" in
    let* overhead := truediv (relayed - delivered3)%Q delivered4 in
    Ok (<["overhead_ratio" := overhead]> rs2)
  else Ok rs.

(** The [if self.routing_stats["created"] > 0: ... else: ...] statement. *)
Definition derive_delivery_prob (rs : gmap string Q) : result (gmap string Q) :=
  let* created := getitem rs "created" in
  if gt0 created then
    let* delivered := getitem rs "delivered" in
    let* created1 := getitem rs "created" in
    let* prob := truediv delivered created1 in
    Ok (<["delivery_prob" := prob]> rs)
  else Ok (<["delivery_prob" := 0%Q]> rs).

(** Lines 228-243 of [NetSim.run]. *)
Definition derive_metrics (rs : gmap string Q) : result (gmap string Q) :=
  let* rs1 := derive_averages rs in
  derive_delivery_prob rs1.

(** Lines 245-247 of [NetSim.run]: the two [del] statements. *)
Definition drop_raw_sums (rs : gmap string Q) : result (gmap string Q) :=
  let* rs1 := delitem rs "hops" in
  delitem rs1 "latency".

(** The whole end-of-run treatment of [routing_stats]. *)
Definition finish_routing_stats (rs : gmap string Q) : result (gmap string Q) :=
  let* rs1 := derive_metrics rs in
  drop_raw_sums rs1.

End Stats.

(** ** The simpy event loop driven by [NetSim.run]

    [Environment] keeps a heap of [(time, priority, eid, event)] entries,
    [eid] being a counter that grows with every [schedule].  The heap is kept
    here as the list of its entries in pop order; pushing an entry with a
    fresh [eid] places it behind every queued entry whose [(time, priority)]
    is not larger.  An event is kept for what its callbacks do: it resumes a
    process, or it is the [until] event of [run]; events without callbacks
    (the end of a process nobody waits for) are left out. *)

Module Simpy.

(** simpy's [URGENT = 0] and [NORMAL = 1]. *)
Inductive priority : Type := URGENT | NORMAL.

Definition prio_leb (a b : priority) : bool :=
  match a, b with
  | NORMAL, URGENT => false
  | _, _ => true
  end.

Definition Qltb (a b : Q) : bool := negb (Qle_bool b a).

Section Engine.

(** [W]: everything the processes read and write; [T]: the suspended
    processes (a generator frozen at a [yield]). *)
Context {W T : Type}.

(** What a process does with the environment while it runs: it yields a
    timeout, to go on as [k] when it fires (an event it triggers for a
    waiting process [k] is the same with no delay), or it starts a
    process. *)
Inductive request : Type :=
| YieldTimeout (delay : Q) (k : T)   (* [yield env.timeout(delay)] *)
| StartProcess (k : T).              (* [env.process(k)] *)

(** A queued event either resumes a process or is the [until] event of
    [Environment.run]. *)
Inductive payload : Type :=
| Stop
| Resume (k : T).

Record event : Type := Event {
  ev_time : Q;
  ev_prio : priority;
  ev_what : payload
}.

Record env : Type := Env {
  now : Q;
  queue : list event;
  world : W
}.

(** Running process [k] at time [now] on world [w] yields the new world
    and the requests it made, in order. *)
Variable resume : T -> Q -> W -> W * list request.

Definition key_leb (a b : event) : bool :=
  Qltb (ev_time a) (ev_time b)
  || (Qeq_bool (ev_time a) (ev_time b) && prio_leb (ev_prio a) (ev_prio b)).

(** [heappush] of an entry with a fresh [eid]. *)
Fixpoint enqueue (x : event) (q : list event) : list event :=
  match q with
  | [] => [x]
  | y :: q' => if key_leb y x then y :: enqueue x q' else x :: y :: q'
  end.

(** [Environment.schedule(event, priority, delay)].  A Python number has one
    representation, so the sum is kept in lowest terms. *)
Definition schedule (p : priority) (delay : Q) (what : payload) (e : env) : env :=
  Env (now e) (enqueue (Event (Qred (now e + delay)) p what) (queue e)) (world e).

(** One request of a running process.  [Timeout.__init__] raises on a
    negative delay; [Process.__init__] schedules its [Initialize] event
    urgently with no delay. *)
Definition submit (r : request) (e : env) : result env :=
  match r with
  | YieldTimeout delay k =>
      if Qltb delay 0 then Raise (ValueError "Negative delay")
      else Ok (schedule NORMAL delay (Resume k) e)
  | StartProcess k => Ok (schedule URGENT 0 (Resume k) e)
  end.

Fixpoint submit_all (rs : list request) (e : env) : result env :=
  match rs with
  | [] => Ok e
  | r :: rs' => let* e1 := submit r e in submit_all rs' e1
  end.

(** Result of [Environment.step]. *)
Inductive stepped : Type :=
| Continue (e : env)
| Stopped (e : env)          (* [StopSimulation] *)
| Failed (x : exn).

(** Processing of a popped event at the already advanced clock. *)
Definition fire (ev : event) (e : env) : stepped :=
  match ev_what ev with
  | Stop => Stopped e
  | Resume k =>
      let '(w, rs) := resume k (now e) (world e) in
      match submit_all rs (Env (now e) (queue e) w) with
      | Ok e' => Continue e'
      | Raise x => Failed x
      end
  end.

(** [Environment.step]: pop the next event, advance the clock to its time
    and run its callbacks. *)
Definition step (e : env) : stepped :=
  match queue e with
  | [] => Failed (RuntimeError "No scheduled events left")
  | ev :: q => fire ev (Env (ev_time ev) q (world e))
  end.

(** The [while True: self.step()] loop of [Environment.run]; [None] when
    [fuel] steps did not reach the [until] event. *)
Fixpoint steps (fuel : nat) (e : env) : option (result env) :=
  match fuel with
  | O => None
  | S fuel' =>
      match step e with
      | Continue e' => steps fuel' e'
      | Stopped e' => Some (Ok e')
      | Failed x => Some (Raise x)
      end
  end.

(** [Environment.run(until=at)] for a number [at]. *)
Definition run (fuel : nat) (at_ : Q) (e : env) : option (result env) :=
  if Qle_bool at_ (now e)
  then Some (Raise (ValueError "until must be > the current simulation time"))
  else steps fuel (schedule URGENT (at_ - now e) Stop e).

(** *** Events due before a time

    What a call [run(until=t)] amounts to: the events due before [t] are
    processed in queue order, and the clock is then set to [t]. *)

(** The clock set to [t]. *)
Definition stamp (t : Q) (e : env) : env := Env t (queue e) (world e).

Definition stamp_result (t : Q) (r : result env) : result env :=
  match r with
  | Ok e => Ok (stamp t e)
  | Raise x => Raise x
  end.

(** The events due before [t], processed in queue order; [None] when [fuel]
    events did not exhaust them. *)
Fixpoint drain (fuel : nat) (t : Q) (e : env) : option (result env) :=
  match fuel with
  | O => None
  | S fuel' =>
      match queue e with
      | [] => Some (Ok e)
      | ev :: q =>
          if Qltb (ev_time ev) t then
            match fire ev (Env (ev_time ev) q (world e)) with
            | Continue e' => drain fuel' t e'
            | Stopped e' => Some (Ok e')
            | Failed x => Some (Raise x)
            end
          else Some (Ok e)
      end
  end.

(** *** A queue with and without the [until] event *)

(** Nothing at the head of the queue is due before [t]. *)
Definition not_due (t : Q) (b : list event) : Prop :=
  match b with
  | [] => True
  | y :: _ => (t <= ev_time y)%Q
  end.

(** [qs] is [qp] with the [until] event of time [ts] behind the events due
    before [t]. *)
Definition with_until (t ts : Q) (qs qp : list event) : Prop :=
  exists a b,
    qs = a ++ Event ts URGENT Stop :: b /\ qp = a ++ b /\
    Forall (fun ev => (ev_time ev < t)%Q /\ ev_what ev <> Stop) a /\
    not_due t b.

(** No [until] event is pending and the urgent events are due before [t]. *)
Definition quiet_before (t : Q) (q : list event) : Prop :=
  Forall (fun ev => ev_what ev <> Stop /\ (ev_prio ev = URGENT -> (ev_time ev < t)%Q)) q.

(** The state of an environment between two calls of [run]: no [until]
    event is pending and no urgent event lies in the future. *)
Definition ready (e : env) : Prop :=
  Forall (fun ev => ev_what ev <> Stop /\ (ev_prio ev = URGENT -> (ev_time ev <= now e)%Q))
         (queue e).

End Engine.

Arguments request : clear implicits.
Arguments payload : clear implicits.
Arguments event : clear implicits.
Arguments env : clear implicits.
Arguments stepped : clear implicits.

End Simpy.

(** ** Contact plans *)

Module ContactPlan.

(** A contact as the simulator reads it: [timespan] and [nodes]; the link
    quality attributes are not looked at by the modelled code.  Times are
    Python numbers, ints or floats. *)
Record contact : Type := Contact {
  timespan : Q * Q;
  nodes : Z * Z
}.

Definition c_start (c : contact) : Q := fst (timespan c).
Definition c_end (c : contact) : Q := snd (timespan c).

(** Modelled from the spec: the contact plan class, which is not among the
    sources.  Section 2 has a plan be "a set of disjoint, time-ordered
    windows per pair": a plan is taken as the value of its contact table. *)
Record plan : Type := Plan {
  contacts : list contact
}.

(** Modelled from the spec: [c == d] on contacts and [p == q] on plans,
    whose classes are not among the sources.  A plan being the set of its
    windows (section 2), two plans are equal when their contact tables are,
    field by field, numbers by value. *)
Definition contact_eqb (c d : contact) : bool :=
  Qeq_bool (c_start c) (c_start d) && Qeq_bool (c_end c) (c_end d)
  && (fst (nodes c) =? fst (nodes d)) && (snd (nodes c) =? snd (nodes d)).

Fixpoint contacts_eqb (l m : list contact) : bool :=
  match l, m with
  | [], [] => true
  | c :: l', d :: m' => contact_eqb c d && contacts_eqb l' m'
  | _, _ => false
  end.

Definition plan_eqb (p q : plan) : bool := contacts_eqb (contacts p) (contacts q).

(** Start and end times of all contacts. *)
Definition boundaries (cs : list contact) : list Q :=
  flat_map (fun c => [c_start c; c_end c]) cs.

Fixpoint minimum (l : list Q) : option Q :=
  match l with
  | [] => None
  | x :: l' => match minimum l' with
               | None => Some x
               | Some m => Some (if Qle_bool x m then x else m)
               end
  end.

(** Modelled from the spec: [next_event] of the contact plan class, which is
    not among the sources.  Section 4.1: "returns the earliest start or end
    time strictly greater than [after], or none if no more events". *)
Definition next_event (p : plan) (after : Q) : option Q :=
  minimum (List.filter (fun b => Simpy.Qltb after b) (boundaries (contacts p))).

(** Modelled from the spec: [at] of the contact plan class, which is not
    among the sources.  Section 4.1: "returns every interval whose
    [start,end) contains [t], plus any interval starting or ending exactly
    at [t]". *)
Definition at_ (p : plan) (t : Q) : list contact :=
  List.filter (fun c => (Qle_bool (c_start c) t && Simpy.Qltb t (c_end c))
                   || Qeq_bool (c_start c) t || Qeq_bool (c_end c) t)
         (contacts p).

End ContactPlan.

(** ** The simulator object *)

Module NetSim.

Import Simpy ContactPlan.

(** [NetworkPlan]: the object a network interface holds in [contactplan];
    its [contacts] attribute may be [None]. *)
Record network_plan : Type := NetworkPlan {
  np_contacts : option plan
}.

(** A network interface of a node ([NetworkSettings]). *)
Record network_settings : Type := NetworkSettings {
  net_name : string;
  contactplan : option network_plan
}.

(** What [NetSim] reads of a [Node]: its id, position, interfaces (the
    values of the dict [n.net], in order) and the router's store figures. *)
Record node : Type := Node {
  node_id : Z;
  node_x : Q;
  node_y : Q;
  node_net : list network_settings;
  router_capacity : Q;
  router_used : Q
}.

(** A call of [event_log(ts, category, payload)]. *)
Record log_record : Type := LogRecord {
  log_ts : Q;
  log_category : string;
  log_payload : gmap string value
}.

(** The objects the processes of a run share: the two statistics dicts, the
    state of the event log module, and the rest ([U]: stores, neighbour
    sets, positions). *)
Record sim_world (U : Type) : Type := World {
  routing_stats : gmap string Q;
  net_stats : gmap string Q;
  is_logging : bool;
  event_filter : value;
  event_log : list log_record;
  user : U
}.
Arguments World {U}.
Arguments routing_stats {U}.
Arguments net_stats {U}.
Arguments is_logging {U}.
Arguments event_filter {U}.
Arguments event_log {U}.
Arguments user {U}.

(** Where the generator [contact_logger] is suspended. *)
Inductive logger_state : Type :=
| LoggerCreated                               (* not yet started *)
| LoggerWaiting (total next_event : Q).       (* at [yield self.env.timeout(next_event)] *)

(** The processes of a run.  [X] is the state of those whose code is not
    modelled (nodes, interfaces, movement manager, message generators). *)
Inductive task (X : Type) : Type :=
| MovementLogger (started : bool)
| PeersLogger (started : bool)
| ContactLogger (cp : option plan) (st : logger_state)
| MessageEventGenerator (msggen : gmap string value) (st : option X)
| MessageBurstGenerator (msggen : gmap string value) (st : option X)
| Foreign (st : X).
Arguments MovementLogger {X}.
Arguments PeersLogger {X}.
Arguments ContactLogger {X}.
Arguments MessageEventGenerator {X}.
Arguments MessageBurstGenerator {X}.
Arguments Foreign {X}.

(** What [setup] and [run] do besides computing: calls into the engine, the
    event log module and the node, interface and movement classes. *)
Inductive action (X : Type) : Type :=
| EnvProcess (t : task X)                        (* [self.env.process(t)] *)
| OpenLog                                        (* [open_log()] *)
| CloseLog                                       (* [close_log()] *)
| SetEventFilter (v : value)                     (* [pons.event_log.event_filter = v] *)
| EventLog (r : log_record)                      (* [event_log(ts, cat, payload)] *)
| MoverStart                                     (* [self.mover.start()] *)
| NodeStart (id : Z)                             (* [n.start(self)] *)
| NetStart (id : Z) (net : string)               (* [net.start(self)] *)
| CalcNeighbors (now : Q) (id : Z)               (* [n.calc_neighbors(now, nodes)] *)
| AddAllNeighbors (now : Q) (id : Z).            (* [n.add_all_neighbors(now, nodes)] *)
Arguments EnvProcess {X}.
Arguments OpenLog {X}.
Arguments CloseLog {X}.
Arguments SetEventFilter {X}.
Arguments EventLog {X}.
Arguments MoverStart {X}.
Arguments NodeStart {X}.
Arguments NetStart {X}.
Arguments CalcNeighbors {X}.
Arguments AddAllNeighbors {X}.

(** The attributes of a [NetSim] object that [setup] and [run] read.
    [nodes] is the dict [{n.id: n for n in nodes}] as its list of items. *)
Record netsim : Type := NetSimObj {
  duration : Z;
  nodes : list (Z * node);
  movements : option (list value);
  msggens : option (list (gmap string value));
  config : option (gmap string value)
}.

(** [{n.id: n for n in nodes}]: a later node with the same id replaces the
    earlier one in place. *)
Fixpoint dict_set (k : Z) (n : node) (d : list (Z * node)) : list (Z * node) :=
  match d with
  | [] => [(k, n)]
  | (k', n') :: d' => if k' =? k then (k, n) :: d' else (k', n') :: dict_set k n d'
  end.

Definition nodes_dict (ns : list node) : list (Z * node) :=
  fold_left (fun d n => dict_set (node_id n) n d) ns [].

(** [self.nodes.values()] *)
Definition node_values (s : netsim) : list node := map snd (nodes s).

(** [next_event > self.duration] *)
Definition duration_lt (D : Z) (nx : Q) : bool := Qltb (inject_Z D) nx.

(** *** [NetSim.setup] *)

Section Setup.

Context {X : Type}.

(** The [if self.config is not None:] block. *)
Definition setup_config (cfg : gmap string value) : list (action X) :=
  (if truthy (dict_get cfg "movement_logger" (VBool true))
   then [EnvProcess (MovementLogger false)] else [])
  ++ (if truthy (dict_get cfg "peers_logger" (VBool true))
      then [EnvProcess (PeersLogger false)] else [])
  ++ (if truthy (dict_get cfg "event_logging" (VBool false))
      then [OpenLog] else [])
  ++ [SetEventFilter (dict_get cfg "event_filter" (VList []))].

(** The body of [for msggen in self.msggens:]. *)
Definition start_msggen (msggen : gmap string value) : result (action X) :=
  match msggen !! "type" with
  | None => Ok (EnvProcess (MessageEventGenerator msggen None))
  | Some VNone => Ok (EnvProcess (MessageEventGenerator msggen None))
  | Some (VStr ty) =>
      if String.eqb ty "single"
      then Ok (EnvProcess (MessageEventGenerator msggen None))
      else if String.eqb ty "burst"
      then Ok (EnvProcess (MessageBurstGenerator msggen None))
      else Raise (Exception "unknown message generator type")
  | Some _ => Raise (Exception "unknown message generator type")
  end.

(** The loop over [self.msggens]: the processes started before the loop
    ends or raises. *)
Fixpoint start_msggens (gens : list (gmap string value))
  : list (action X) * result unit :=
  match gens with
  | [] => ([], Ok tt)
  | g :: gens' =>
      match start_msggen g with
      | Ok a => let '(acts, r) := start_msggens gens' in (a :: acts, r)
      | Raise x => ([], Raise x)
      end
  end.

(** [NetSim.setup]: the calls it makes, in order, and how it ends. *)
Definition setup (s : netsim) : list (action X) * result unit :=
  let mover :=
    match movements s with
    | Some (_ :: _) => [MoverStart]
    | _ => []
    end in
  let conf :=
    match config s with
    | Some cfg => setup_config cfg
    | None => []
    end in
  let started := map (fun n => NodeStart (node_id n)) (node_values s) in
  let '(gens, r) :=
    match msggens s with
    | Some gens => start_msggens gens
    | None => ([], Ok tt)
    end in
  match r with
  | Raise x => (mover ++ conf ++ started ++ gens, Raise x)
  | Ok _ =>
      (mover ++ conf ++ started ++ gens
       ++ map (fun n => CalcNeighbors 0 (node_id n)) (node_values s), Ok tt)
  end.

End Setup.

(** *** [NetSim.using_contactplan] *)

Definition has_contactplan (net : network_settings) : bool :=
  match contactplan net with
  | Some _ => true
  | None => false
  end.

Definition using_contactplan (s : netsim) : bool :=
  existsb (fun n => existsb has_contactplan (node_net n)) (node_values s).

(** *** [NetSim.contact_logger] *)

Section ContactLogger.

Context {U X : Type}.

(** Modelled from the spec: the filter of the event log module, which is
    not among the sources.  Section 6: "an external filter set restricts
    which categories are retained".  The empty list, which [setup] assigns
    by default, restricts nothing; a value that is no list is taken as
    empty. *)
Definition retained (filter : value) (category : string) : bool :=
  match filter with
  | VList [] => true
  | VList l => existsb (String.eqb category) l
  | _ => true
  end.

(** Modelled from the spec: [event_log(ts, cat, payload)] of the event log
    module, which is not among the sources.  Section 6: records are emitted
    "when logging is enabled", in call order, the filter restricting what
    is retained. *)
Definition emit (rs : list log_record) (w : sim_world U) : sim_world U :=
  if is_logging w
  then World (routing_stats w) (net_stats w) (is_logging w) (event_filter w)
             (event_log w
              ++ List.filter (fun r => retained (event_filter w) (log_category r)) rs)
             (user w)
  else w.

Definition link_record (total : Q) (what : string) (c : contact) : log_record :=
  LogRecord total "LINK"
    (list_to_map [("event", VStr what);
                  ("nodes", VPair (fst (ContactPlan.nodes c)) (snd (ContactPlan.nodes c)))]).

(** The body of [for e in events:]. *)
Definition link_events (total : Q) (c : contact) : list log_record :=
  (if Qeq_bool (c_start c) total then [link_record total "UP" c] else [])
  ++ (if Qeq_bool (c_end c) total then [link_record total "DOWN" c] else []).

(** The generator, from where it is suspended up to its next [yield] or
    its end (no request).  A Python number has one representation, so the
    results of [total += next_event] and [next_event -= total] are kept in
    lowest terms. *)
Definition contact_logger (D : Z) (cp : option plan) (st : logger_state)
    (w : sim_world U) : sim_world U * list (request (task X)) :=
  match st with
  | LoggerCreated =>
      if negb (is_logging w) then (w, [])
      else match cp with
           | None => (w, [])
           | Some p =>
               match next_event p 0 with
               | None => (w, [])
               | Some ne =>
                   (w, [YieldTimeout ne (ContactLogger cp (LoggerWaiting 0 ne))])
               end
           end
  | LoggerWaiting total0 ne =>
      match cp with
      | None => (w, [])
      | Some p =>
          let total := Qred (total0 + ne) in
          let w' := emit (flat_map (link_events total) (at_ p total)) w in
          match next_event p total with
          | None => (w', [])
          | Some nx =>
              if duration_lt D nx then (w', [])
              else (w', [YieldTimeout (Qred (nx - total))
                           (ContactLogger cp (LoggerWaiting total (Qred (nx - total))))])
          end
      end
  end.

(** The processes of a run; [foreign] stands for the generators whose code
    is not modelled. *)
Definition resume (D : Z)
    (foreign : task X -> Q -> sim_world U -> sim_world U * list (request (task X)))
    (t : task X) (now : Q) (w : sim_world U) : sim_world U * list (request (task X)) :=
  match t with
  | MovementLogger _ => (w, [YieldTimeout 1 (MovementLogger true)])
  | PeersLogger _ => (w, [YieldTimeout 1 (PeersLogger true)])
  | ContactLogger cp st => contact_logger D cp st w
  | _ => foreign t now w
  end.

End ContactLogger.

(** *** The contact logger as the only process

    The logger reads the plan, the duration and the logging flag, and writes
    LINK records; it is followed here on its own in the event loop. *)

Section LoggerAlone.

Context {U X : Type}.
Variable D : Z.
Variable p : plan.





(** The environment in which [run] has just started the logger. *)
Definition logger_env (w : sim_world U) : env (sim_world U) (task X) :=
  Env 0 [Event 0 URGENT (Resume (ContactLogger (Some p) LoggerCreated))] w.

End LoggerAlone.

(** *** [NetSim.run] *)

Section RunLoop.

Context {W T : Type}.
Variable resume_task : T -> Q -> W -> W * list (request T).
Variable D : Z.

(** The [while self.env.now < self.duration + 1.0:] loop; [slices] bounds
    the number of iterations, [fuel] the events of one [env.run]. *)
Fixpoint run_loop (slices fuel : nat) (e : env W T) : option (result (env W T)) :=
  if Qltb (now e) (inject_Z D + 1) then
    match slices with
    | O => None
    | S slices' =>
        let now_sim := now e in
        let next_stop := Qmin (inject_Z D + 1) (now_sim + 5) in
        match Simpy.run resume_task fuel next_stop e with
        | Some (Ok e') => run_loop slices' fuel e'
        | other => other
        end
    end
  else Some (Ok e).

(** Iterations the loop needs from clock [now_sim]: the slices of five
    seconds that cover what is left up to [duration + 1]. *)
Definition slices_needed (now_sim : Q) : nat :=
  Z.to_nat (Qceiling ((inject_Z D + 1 - now_sim) / 5)).

(** Modelled from the spec: the unsliced loop, one call of the engine up to
    [duration + 1] (section 4.3: "slice size must not affect simulation
    outcome"). *)
Definition run_single (fuel : nat) (e : env W T) : option (result (env W T)) :=
  if Qltb (now e) (inject_Z D + 1)
  then Simpy.run resume_task fuel (inject_Z D + 1) e
  else Some (Ok e).

End RunLoop.

Section Run.

Context {U X : Type}.

(** The payload of the CONFIG record of a node. *)
Definition config_payload (n : node) : gmap string value :=
  list_to_map
    [("event", VStr "START"); ("id", VInt (node_id n)); ("x", VNum (node_x n));
     ("y", VNum (node_y n)); ("capacity", VNum (router_capacity n));
     ("used", VNum (router_used n))].

Definition config_record (n : node) : log_record :=
  LogRecord 0 "CONFIG" (config_payload n).

(** The plans a node adds to [all_contactplans]. *)
Definition plans_of (n : node) : list plan :=
  flat_map (fun net => match contactplan net with
                       | Some (NetworkPlan (Some p)) => [p]
                       | _ => []
                       end) (node_net n).

(** [all_contactplans.add(p)]: a plan equal ([plan_eqb]) to one already in
    the set is not added. *)
Definition set_add (p : plan) (ps : list plan) : list plan :=
  if existsb (fun p' => plan_eqb p' p) ps then ps else ps ++ [p].

(** The set [all_contactplans], listed in the order in which its elements
    were added.  Python iterates a set in the order of the hashes, which
    the model does not have: what is stated about the plans of a run is
    stated for their set, not for their order. *)
Definition all_contactplans (s : netsim) : list plan :=
  fold_left (fun ps p => set_add p ps) (flat_map plans_of (node_values s)) [].

(** The first loop of [run]: one CONFIG record per node, then the start
    of its interfaces. *)
Definition announce (n : node) : list (action X) :=
  EventLog (config_record n)
  :: map (fun net => NetStart (node_id n) (net_name net)) (node_net n).

(** The [if not self.using_contactplan(): ... else: ...] statement. *)
Definition seed_neighbors (s : netsim) (now_sim : Q) : list (action X) :=
  if negb (using_contactplan s)
  then map (fun n => CalcNeighbors now_sim (node_id n)) (node_values s)
  else map (fun n => AddAllNeighbors now_sim (node_id n)) (node_values s).

(** Everything [run] does before its loop. *)
Definition run_prelude (s : netsim) (now_sim : Q) : list (action X) :=
  flat_map announce (node_values s)
  ++ map (fun p => EnvProcess (ContactLogger (Some p) LoggerCreated))
         (all_contactplans s)
  ++ seed_neighbors s now_sim.

(** The calls into classes that are not modelled act on the world and may
    start processes or timeouts. *)
Variable extern : action X -> Q -> sim_world U -> sim_world U * list (request (task X)).
Variable foreign : task X -> Q -> sim_world U -> sim_world U * list (request (task X)).

Definition set_logging (b : bool) (w : sim_world U) : sim_world U :=
  World (routing_stats w) (net_stats w) b (event_filter w) (event_log w) (user w).

Definition set_filter (v : value) (w : sim_world U) : sim_world U :=
  World (routing_stats w) (net_stats w) (is_logging w) v (event_log w) (user w).

Definition set_routing_stats (rs : gmap string Q) (w : sim_world U) : sim_world U :=
  World rs (net_stats w) (is_logging w) (event_filter w) (event_log w) (user w).

Definition with_world (w : sim_world U) (e : env (sim_world U) (task X)) : env (sim_world U) (task X) :=
  Env (now e) (queue e) w.

(** Modelled from the spec: the event log module ([open_log], [close_log],
    [is_logging], [event_log]) is not among the sources; section 9 gives
    its life cycle as open, append, close. *)
Definition perform (a : action X) (e : env (sim_world U) (task X))
  : result (env (sim_world U) (task X)) :=
  match a with
  | EnvProcess t => submit (StartProcess t) e
  | OpenLog => Ok (with_world (set_logging true (world e)) e)
  | CloseLog => Ok (with_world (set_logging false (world e)) e)
  | SetEventFilter v => Ok (with_world (set_filter v (world e)) e)
  | EventLog r => Ok (with_world (emit [r] (world e)) e)
  | _ => let '(w, rs) := extern a (now e) (world e) in
         submit_all rs (with_world w e)
  end.

(** A sequence of calls; the environment reached is kept when one of them
    raises. *)
Fixpoint perform_all (acts : list (action X)) (e : env (sim_world U) (task X))
  : env (sim_world U) (task X) * result unit :=
  match acts with
  | [] => (e, Ok tt)
  | a :: acts' =>
      match perform a e with
      | Ok e' => perform_all acts' e'
      | Raise x => (e, Raise x)
      end
  end.

(** [netsim.setup()] on an environment. *)
Definition do_setup (s : netsim) (e : env (sim_world U) (task X))
  : env (sim_world U) (task X) * result unit :=
  let '(acts, r) := setup s in
  let '(e', r') := perform_all acts e in
  (e', match r' with Raise x => Raise x | Ok _ => r end).

(** The end of [run]: derived metrics, removal of the raw sums,
    [close_log()]. *)
Definition finish (e : env (sim_world U) (task X)) : result (env (sim_world U) (task X)) :=
  let* rs := Stats.finish_routing_stats (routing_stats (world e)) in
  perform CloseLog (with_world (set_routing_stats rs (world e)) e).

(** [netsim.run()] *)
Definition run (s : netsim) (slices fuel : nat) (e : env (sim_world U) (task X))
  : option (result (env (sim_world U) (task X))) :=
  match perform_all (run_prelude s (now e)) e with
  | (_, Raise x) => Some (Raise x)
  | (e1, Ok _) =>
      match run_loop (resume (duration s) foreign) (duration s) slices fuel e1 with
      | Some (Ok e2) => Some (finish e2)
      | other => other
      end
  end.

(** Modelled from the spec: [run] with the unsliced loop, against which
    section 4.3 sets the sliced one. *)
Definition run_unsliced (s : netsim) (fuel : nat) (e : env (sim_world U) (task X))
  : option (result (env (sim_world U) (task X))) :=
  match perform_all (run_prelude s (now e)) e with
  | (_, Raise x) => Some (Raise x)
  | (e1, Ok _) =>
      match run_single (resume (duration s) foreign) (duration s) fuel e1 with
      | Some (Ok e2) => Some (finish e2)
      | other => other
      end
  end.


End Run.

(** The environment and world built by [NetSim.__init__]. *)
Definition initial_world {U : Type} (u : U) : sim_world U :=
  World Stats.initial_routing_stats Stats.initial_net_stats false (VList []) [] u.

Definition initial_env {U X : Type} (u : U) : env (sim_world U) (task X) :=
  Env 0 [] (initial_world u).

(** *** Notions used to state what the methods do *)

(** A generator configuration [setup] accepts: its ["type"] is absent,
    [None], ["single"] or ["burst"]. *)
Definition known_type (g : gmap string value) : Prop :=
  g !! "type" = None \/ g !! "type" = Some VNone \/
  g !! "type" = Some (VStr "single") \/ g !! "type" = Some (VStr "burst").

(** The processes started by a sequence of calls. *)
Definition started {X : Type} (acts : list (action X)) : list (task X) :=
  flat_map (fun a => match a with EnvProcess t => [t] | _ => [] end) acts.

(** The calls that reach the node, interface and mover classes. *)
Definition external {X : Type} (acts : list (action X)) : list (action X) :=
  List.filter (fun a => match a with
                        | MoverStart | NodeStart _ | NetStart _ _
                        | CalcNeighbors _ _ | AddAllNeighbors _ _ => true
                        | _ => false
                        end) acts.

(** The calls that seed neighbour sets. *)
Definition seeding {X : Type} (acts : list (action X)) : list (action X) :=
  List.filter (fun a => match a with
                        | CalcNeighbors _ _ | AddAllNeighbors _ _ => true
                        | _ => false
                        end) acts.

(** A stand-in for the node, interface and mover classes that keeps every
    call it receives, in order, changes nothing else and starts nothing. *)
Definition recorder {X : Type} (a : action X) (now_sim : Q)
    (w : sim_world (list (action X)))
  : sim_world (list (action X)) * list (request (task X)) :=
  (World (routing_stats w) (net_stats w) (is_logging w) (event_filter w) (event_log w)
         (user w ++ [a]), []).

(** *** The movement and the peers logger as the only processes *)

Section Printers.

Context {U X : Type}.

(** The movement logger first, the peers logger behind it, both due at
    [k]; past time 0 both have run. *)
Definition printers_level (k : Z) (q : list (event (task X))) : Prop :=
  exists t1 p1 b1 t2 p2 b2,
    q = [Event t1 p1 (Resume (MovementLogger b1)); Event t2 p2 (Resume (PeersLogger b2))] /\
    (t1 == inject_Z k)%Q /\ (t2 == inject_Z k)%Q /\
    (0 < k -> b1 = true /\ b2 = true).

(** The peers logger due at [k], the movement logger already waiting for
    [k + 1]. *)
Definition printers_between (k : Z) (q : list (event (task X))) : Prop :=
  exists t1 p1 b1 t2 p2 b2,
    q = [Event t2 p2 (Resume (PeersLogger b2)); Event t1 p1 (Resume (MovementLogger b1))] /\
    (t2 == inject_Z k)%Q /\ (t1 == inject_Z (k + 1))%Q /\
    b1 = true /\ (0 < k -> b2 = true).

(** The environment in which [setup] has just started the two loggers. *)
Definition printers_env (w : sim_world U) : env (sim_world U) (task X) :=
  Env 0 [Event 0 URGENT (Resume (MovementLogger false));
         Event 0 URGENT (Resume (PeersLogger false))] w.

End Printers.

End NetSim.

(** ** The visualizer [ponsanim.py] *)

Module Ponsanim.

(** A node of the graph [g]: its key and the attributes [x], [y], [name]. *)
Record graph_node : Type := GraphNode {
  gn_key : value;
  gn_x : Z;
  gn_y : Z;
  gn_name : value
}.

Definition digit_of (c : Ascii.ascii) : option Z :=
  let n := Z.of_nat (Ascii.nat_of_ascii c) in
  if (48 <=? n) && (n <=? 57) then Some (n - 48) else None.

Fixpoint digits (acc : Z) (s : string) : option Z :=
  match s with
  | EmptyString => Some acc
  | String c s' =>
      match digit_of c with
      | Some d => digits (10 * acc + d) s'
      | None => None
      end
  end.

(** [int(s)] for a string: an optional sign and decimal digits (blanks and
    digit separators are not modelled). *)
Definition int_of_string (s : string) : option Z :=
  match s with
  | EmptyString => None
  | String "-"%char (String c s') => option_map Z.opp (digits 0 (String c s'))
  | String "+"%char (String c s') => digits 0 (String c s')
  | _ => digits 0 s
  end.

(** [int(v)] *)
Definition int_ (v : value) : result Z :=
  match v with
  | VInt z => Ok z
  | VNum q => Ok (int_of q)
  | VBool b => Ok (if b then 1 else 0)
  | VStr s =>
      match int_of_string s with
      | Some z => Ok z
      | None => Raise (ValueError "invalid literal for int()")
      end
  | _ => Raise (TypeError "int() argument must be a string or a number")
  end.

(** The [if cat == "CONFIG":] branch of [main], on the running maxima. *)
Definition on_config (max_x max_y : Z) (event : gmap string value)
  : result (Z * Z * graph_node) :=
  let* vx := getitem event "x" in
  let* x := int_ vx in
  let* vy := getitem event "y" in
  let* y := int_ vy in
  let max_x' := Z.max max_x x in
  let max_y' := Z.max max_y y in
  let* key := getitem event "id" in
  let* name := getitem event "name" in
  Ok (max_x', max_y', GraphNode key x y name).

(** The payload keys the branch reads. *)
Definition config_keys_read : list string := ["x"; "y"; "id"; "name"].

(** *** [draw_node] *)

(** The calls made on the [ImageDraw] object. *)
Inductive draw_cmd : Type :=
| DrawText (x y : Z) (text fill : string)
| DrawRectangle (x0 y0 x1 y1 : Z) (fill : string)
| DrawCircle (x y r : Z) (fill : string).

(** [range(n)] *)
Definition range (n : Z) : list Z := map Z.of_nat (seq 0 (Z.to_nat n)).

(** The loop [for i in range(num_blocks):] with its [break]. *)
Fixpoint draw_blocks (x y store_usage : Z) (indices : list Z) : list draw_cmd :=
  match indices with
  | [] => []
  | i :: rest =>
      let color := if 95 <? store_usage then "red" else "blue" in
      if 4 <? i then []
      else DrawRectangle (x + 14) (y - i * 5 - i * 2) (x + 18) (y + 4 - i * 5 - i * 2) color
           :: draw_blocks x y store_usage rest
  end.

(** [draw_node(img, x, y, name, store_usage)]: the calls on [img], in
    order. *)
Definition draw_node (x y : Z) (name : string) (store_usage : option Z) : list draw_cmd :=
  (if negb (String.eqb name "") then [DrawText (x + 6) (y + 6) name "black"] else [])
  ++ match store_usage with
     | Some u =>
         if 0 <? u
         then let num_blocks := u / 25 in
              let num_blocks := num_blocks + 1 in
              draw_blocks x y u (range num_blocks)
         else []
     | None => []
     end
  ++ [DrawCircle x y 8 "blue"].

(** The rectangles among the calls. *)
Definition rectangles (cmds : list draw_cmd) : list draw_cmd :=
  List.filter (fun c => match c with DrawRectangle _ _ _ _ _ => true | _ => false end) cmds.

(** *** [progressBar] *)

Section ProgressBar.

(** [C]: the characters of a Python string; [A]: the items of the
    iterable. *)
Context {C A : Type}.
Variable dash : C.                                (* the character of ["-"] *)

(** [s * n] for a string and an int: empty when [n <= 0]. *)
Definition str_mul (s : list C) (n : Z) : list C := concat (repeat s (Z.to_nat n)).

(** What the consumer of the generator and the terminal get, in order. *)
Inductive progress_out : Type :=
| Printed (bar : list C)                          (* a line with this bar *)
| Yielded (item : A)
| Newline.

(** [printProgressBar(iteration)].  Of the printed line the bar is kept;
    the percentage is a formatted float and is left out, but for the
    division it starts with, which raises when [total] is 0. *)
Definition printProgressBar (total length : Z) (fill : list C) (iteration : Z)
  : result (list C) :=
  if total =? 0 then Raise ZeroDivisionError
  else
    let filledLength := length * iteration / total in
    Ok (str_mul fill filledLength ++ str_mul [dash] (length - filledLength)).

(** [for i, item in enumerate(iterable): yield item; printProgressBar(i + 1)] *)
Fixpoint progress_loop (total length : Z) (fill : list C) (i : Z) (items : list A)
  : list progress_out * result unit :=
  match items with
  | [] => ([], Ok tt)
  | item :: rest =>
      match printProgressBar total length fill (i + 1) with
      | Ok bar =>
          let '(out, r) := progress_loop total length fill (i + 1) rest in
          (Yielded item :: Printed bar :: out, r)
      | Raise x => ([Yielded item], Raise x)
      end
  end.

(** The generator [progressBar(iterable, length=length, fill=fill)], run to
    its end. *)
Definition progressBar (iterable : list A) (length : Z) (fill : list C)
  : list progress_out * result unit :=
  let total := Z.of_nat (List.length iterable) in
  match printProgressBar total length fill 0 with
  | Ok bar =>
      match progress_loop total length fill 0 iterable with
      | (out, Ok _) => (Printed bar :: out ++ [Newline], Ok tt)
      | (out, Raise x) => (Printed bar :: out, Raise x)
      end
  | Raise x => ([], Raise x)
  end.

Definition yielded (out : list progress_out) : list A :=
  flat_map (fun o => match o with Yielded a => [a] | _ => [] end) out.

Definition printed (out : list progress_out) : list (list C) :=
  flat_map (fun o => match o with Printed b => [b] | _ => [] end) out.

End ProgressBar.

Arguments progress_out : clear implicits.

(** *** Active links: the ROUTER branch of [main] and the edges of
    [draw_network] *)

(** [v == s] for a string literal [s]. *)
Definition is_str (v : value) (s : string) : bool :=
  match v with
  | VStr s' => String.eqb s' s
  | _ => false
  end.

(** [tuple(sorted([a, b]))] for two ints. *)
Definition sorted_pair (a b : Z) : Z * Z := if b <? a then (b, a) else (a, b).

Definition pair_eqb (u v : Z * Z) : bool := (fst u =? fst v) && (snd u =? snd v).

(** [active_links.add(link)] on the set [active_links]. *)
Definition links_add (link : Z * Z) (active_links : list (Z * Z)) : list (Z * Z) :=
  if existsb (pair_eqb link) active_links then active_links else active_links ++ [link].

(** The branch [elif cat == "ROUTER" and "bundles_rxtx" in
    args.extra_information:] of the frame loop. *)
Definition on_router (event : gmap string value) (active_links : list (Z * Z))
  : result (list (Z * Z)) :=
  let* ev := getitem event "event" in
  let* tx_or_rx :=
    (if is_str ev "TX" then Ok true
     else let* ev' := getitem event "event" in Ok (is_str ev' "RX")) in
  if tx_or_rx : bool then
    let* vsrc := getitem event "src" in
    let* src := int_ vsrc in
    let* vdst := getitem event "dst" in
    let* dst := int_ vdst in
    Ok (links_add (sorted_pair src dst) active_links)
  else Ok active_links.

(** Colour and width of the line [draw_network] draws for an edge. *)
Definition link_style (active_links : list (Z * Z)) (edge : Z * Z) : string * Z :=
  let link := sorted_pair (fst edge) (snd edge) in
  if existsb (pair_eqb link) active_links then ("green", 4) else ("black", 1).

(** *** The LINK branch of [main]

    [contacts] is a list of [CoreContact]; the four link attributes are 0
    in every contact built here and are left out, and the times are ints,
    like the [-1] of an open contact.  [CoreContact] is compared by its
    fields. *)

Record contact : Type := Contact {
  timespan : Z * Z;
  nodes : Z * Z
}.

Definition c_start (c : contact) : Z := fst (timespan c).
Definition c_end (c : contact) : Z := snd (timespan c).

Definition contact_eqb (c d : contact) : bool :=
  pair_eqb (timespan c) (timespan d)
  && pair_eqb (nodes c) (nodes d).

(** [contacts.remove(c)]: the first element equal to [c] goes; [c] was read
    from the list, so one is found. *)
Fixpoint list_remove (c : contact) (l : list contact)
  : list contact :=
  match l with
  | [] => []
  | x :: l' => if contact_eqb x c then l' else x :: list_remove c l'
  end.

(** [if event["event"] == "UP":] *)
Definition link_up (ts : Z) (nodes : Z * Z) (contacts : list contact)
  : list contact :=
  contacts ++ [Contact (ts, -1) nodes].

(** The open contact of a pair: [c.nodes == event["nodes"] and
    c.timespan[1] == -1]. *)
Definition open_for (nodes : Z * Z) (c : contact) : bool :=
  pair_eqb (Ponsanim.nodes c) nodes && (c_end c =? -1).

(** [for c in contacts:] under the DOWN record.  The list iterator reads
    index [idx] of the list as it is at that moment and stops when the
    index is past its end; the body keeps the length of the list, so
    [rounds], set to that length, is never what ends the loop. *)
Fixpoint close_contacts (rounds idx : nat) (ts : Z) (nodes : Z * Z)
    (contacts : list contact) : list contact :=
  match rounds with
  | O => contacts
  | S rounds' =>
      match nth_error contacts idx with
      | None => contacts
      | Some c =>
          if open_for nodes c
          then close_contacts rounds' (S idx) ts nodes
                 (list_remove c contacts
                  ++ [Contact (c_start c, ts) nodes])
          else close_contacts rounds' (S idx) ts nodes contacts
      end
  end.

(** [if event["event"] == "DOWN":] *)
Definition link_down (ts : Z) (nodes : Z * Z) (contacts : list contact)
  : list contact :=
  close_contacts (length contacts) 0 ts nodes contacts.

End Ponsanim.


(** ** Scenarios *)

Module Scenario.

Import Simpy ContactPlan NetSim.



(** The first scenario of [examples/corecontactplan.py], with a plan of two
    contacts and the event log switched on. *)
Definition demo_plan : plan :=
  Plan [Contact (0, 10)%Q (0, 1); Contact (25, 40)%Q (0, 1)].

Definition demo_net : network_settings :=
  NetworkSettings "contactplan" (Some (NetworkPlan (Some demo_plan))).

Definition demo_nodes : list node :=
  [Node 0 (7 # 2) 12 [demo_net] 10000 0; Node 1 40 (9 # 4) [demo_net] 10000 0].

Definition demo_msggen : gmap string value :=
  list_to_map
    [("type", VStr "single"); ("interval", VInt 40); ("src", VPair 0 1);
     ("dst", VPair 1 2); ("size", VInt 100); ("id", VStr "M"); ("ttl", VInt 3600)].

Definition demo_config : gmap string value :=
  list_to_map
    [("movement_logger", VBool false); ("peers_logger", VBool false);
     ("event_logging", VBool true)].

Definition demo_sim : netsim :=
  NetSimObj 120 (nodes_dict demo_nodes) (Some []) (Some [demo_msggen]) (Some demo_config).

(** A stand-in for the message generator: every 40 seconds one bundle is
    created, relayed twice and delivered after 3 seconds over one hop. *)
Definition bump (k : string) (d : Q) (rs : gmap string Q) : gmap string Q :=
  <[k := (dict_get rs k 0 + d)%Q]> rs.

Definition demo_foreign (t : task unit) (now_sim : Q) (w : sim_world unit)
  : sim_world unit * list (request (task unit)) :=
  match t with
  | MessageEventGenerator g _ =>
      (World (bump "created" 1 (bump "delivered" 1 (bump "relayed" 2
               (bump "hops" 1 (bump "latency" 3 (routing_stats w))))))
             (net_stats w) (is_logging w) (event_filter w) (event_log w) (user w),
       [YieldTimeout 40 (MessageEventGenerator g (Some tt))])
  | _ => (w, [])
  end.

Definition demo_extern (a : action unit) (now_sim : Q) (w : sim_world unit)
  : sim_world unit * list (request (task unit)) := (w, []).

(** A scenario without contact plan, with the default (empty) configuration
    and three generator configurations, the last one of an unknown type. *)
Definition range_net : network_settings := NetworkSettings "wifi" None.

Definition burst_msggen : gmap string value :=
  <["type" := VStr "burst"]> demo_msggen.

Definition odd_msggen : gmap string value :=
  <["type" := VStr "poisson"]> demo_msggen.

Definition range_sim : netsim :=
  NetSimObj 60
    (nodes_dict [Node 0 0 0 [range_net] 0 0; Node 1 30 40 [range_net] 0 0])
    (Some []) (Some [demo_msggen; burst_msggen; odd_msggen]) (Some ∅).


(** Raw sums as a run may leave them. *)
Definition demo_stats : gmap string Q :=
  <["created" := 4%Q]> (<["delivered" := 3%Q]> (<["relayed" := 9%Q]>
    (<["hops" := 7%Q]> (<["latency" := (21 # 2)%Q]> Stats.initial_routing_stats)))).

(** The environment [setup] leaves for [run]. *)
Definition demo_env : env (sim_world unit) (task unit) :=
  fst (do_setup demo_extern demo_sim (initial_env tt)).



End Scenario.

(** * Properties *)

Import Simpy ContactPlan NetSim.

(** ** Python primitives *)

Lemma gt0_true (a : Q) : gt0 a = true <-> (0 < a)%Q.
Proof.
  unfold gt0. rewrite negb_true_iff, <- not_true_iff_false, Qle_bool_iff.
  split; [apply Qnot_le_lt | apply Qlt_not_le].
Qed.

Lemma gt0_false (a : Q) : gt0 a = false <-> (a <= 0)%Q.
Proof. unfold gt0. rewrite negb_false_iff. apply Qle_bool_iff. Qed.

Lemma truediv_pos (a b : Q) : (0 < b)%Q -> truediv a b = Ok (a / b)%Q.
Proof.
  intros Hb. unfold truediv.
  destruct (Qeq_bool b 0) eqn:E; [|reflexivity].
  apply Qeq_bool_iff in E. rewrite E in Hb. now apply Qlt_irrefl in Hb.
Qed.

Lemma getitem_Some {V : Type} (d : gmap string V) (k : string) (v : V) :
  d !! k = Some v -> getitem d k = Ok v.
Proof. intros H. unfold getitem. now rewrite H. Qed.

Lemma delitem_Some {V : Type} (d : gmap string V) (k : string) (v : V) :
  d !! k = Some v -> delitem d k = Ok (delete k d).
Proof. intros H. unfold delitem. now rewrite H. Qed.

(** ** End-of-run statistics *)

Section StatsFacts.

Import Stats.

Variable rs : gmap string Q.
Variables created delivered relayed hops latency : Q.
Hypothesis Hcreated : rs !! "created" = Some created.
Hypothesis Hdelivered : rs !! "delivered" = Some delivered.
Hypothesis Hrelayed : rs !! "relayed" = Some relayed.
Hypothesis Hhops : rs !! "hops" = Some hops.
Hypothesis Hlatency : rs !! "latency" = Some latency.

Lemma derive_averages_pos :
  (0 < delivered)%Q ->
  derive_averages rs =
    Ok (<["overhead_ratio" := ((relayed - delivered) / delivered)%Q]>
          (<["hops_avg" := (hops / delivered)%Q]>
             (<["latency_avg" := (latency / delivered)%Q]> rs))).
Proof.
  intros Hpos. unfold derive_averages.
  rewrite (getitem_Some _ _ _ Hdelivered). simpl.
  rewrite (proj2 (gt0_true _) Hpos).
  rewrite (getitem_Some _ _ _ Hlatency). simpl.
  rewrite (truediv_pos _ _ Hpos). simpl.
  rewrite (getitem_Some _ "hops" hops) by (by simplify_map_eq). simpl.
  rewrite (getitem_Some _ "delivered" delivered) by (by simplify_map_eq). simpl.
  rewrite (truediv_pos _ _ Hpos). simpl.
  rewrite (getitem_Some _ "relayed" relayed) by (by simplify_map_eq). simpl.
  rewrite (getitem_Some _ "delivered" delivered) by (by simplify_map_eq). simpl.
  rewrite (truediv_pos _ _ Hpos). reflexivity.
Qed.

Lemma derive_averages_nonpos :
  (delivered <= 0)%Q -> derive_averages rs = Ok rs.
Proof.
  intros Hle. unfold derive_averages.
  rewrite (getitem_Some _ _ _ Hdelivered). simpl.
  now rewrite (proj2 (gt0_false _) Hle).
Qed.

End StatsFacts.

Lemma derive_delivery_prob_eq (rs : gmap string Q) (created delivered : Q) :
  rs !! "created" = Some created ->
  rs !! "delivered" = Some delivered ->
  Stats.derive_delivery_prob rs =
    Ok (<["delivery_prob" := if gt0 created then (delivered / created)%Q else 0%Q]> rs).
Proof.
  intros Hc Hd. unfold Stats.derive_delivery_prob.
  rewrite (getitem_Some _ _ _ Hc). cbn [bind].
  destruct (gt0 created) eqn:E; [|reflexivity].
  rewrite (getitem_Some _ _ _ Hd). cbn [bind].
  now rewrite truediv_pos by (now apply gt0_true).
Qed.

Lemma derive_metrics_eq (rs : gmap string Q) (created delivered relayed hops latency : Q) :
  rs !! "created" = Some created ->
  rs !! "delivered" = Some delivered ->
  rs !! "relayed" = Some relayed ->
  rs !! "hops" = Some hops ->
  rs !! "latency" = Some latency ->
  Stats.derive_metrics rs =
    Ok (<["delivery_prob" := if gt0 created then (delivered / created)%Q else 0%Q]>
          (if gt0 delivered
           then <["overhead_ratio" := ((relayed - delivered) / delivered)%Q]>
                  (<["hops_avg" := (hops / delivered)%Q]>
                     (<["latency_avg" := (latency / delivered)%Q]> rs))
           else rs)).
Proof.
  intros Hc Hd Hr Hh Hl. unfold Stats.derive_metrics.
  destruct (gt0 delivered) eqn:E.
  - rewrite (derive_averages_pos rs delivered relayed hops latency) by
      (assumption || now apply gt0_true).
    simpl. apply derive_delivery_prob_eq; by simplify_map_eq.
  - rewrite (derive_averages_nonpos rs delivered) by
      (assumption || now apply gt0_false).
    simpl. now apply derive_delivery_prob_eq.
Qed.

(** The end of [run] applies [finish] to the state the loop returns, and
    nothing before it in [run] writes the statistics. *)
Lemma run_inv {U X : Type}
    (extern : action X -> Q -> sim_world U -> sim_world U * list (request (task X)))
    (foreign : task X -> Q -> sim_world U -> sim_world U * list (request (task X)))
    (s : netsim) (slices fuel : nat) (e e' : env (sim_world U) (task X)) :
  NetSim.run extern foreign s slices fuel e = Some (Ok e') ->
  exists e1 e2 rs1,
    perform_all extern (run_prelude s (now e)) e = (e1, Ok tt) /\
    run_loop (resume (duration s) foreign) (duration s) slices fuel e1 = Some (Ok e2) /\
    Stats.derive_metrics (routing_stats (world e2)) = Ok rs1 /\
    Stats.drop_raw_sums rs1 = Ok (routing_stats (world e')) /\
    now e' = now e2 /\ queue e' = queue e2 /\
    net_stats (world e') = net_stats (world e2) /\
    event_log (world e') = event_log (world e2) /\
    user (world e') = user (world e2).
Proof.
  unfold NetSim.run. intros H.
  destruct (perform_all extern (run_prelude s (now e)) e) as [e1 [[]|x]] eqn:E1;
    [|discriminate].
  destruct (run_loop _ _ slices fuel e1) as [[e2|x]|] eqn:E2; try discriminate.
  injection H as H. unfold finish, Stats.finish_routing_stats in H.
  destruct (Stats.derive_metrics (routing_stats (world e2))) as [rs1|x] eqn:E3;
    [|discriminate].
  simpl in H.
  destruct (Stats.drop_raw_sums rs1) as [rs2|x] eqn:E4; [|discriminate].
  simpl in H. injection H as <-.
  exists e1, e2, rs1. simpl. repeat split; auto.
Qed.

(** [C1] At the end of [NetSim.run], and from the sums as the loop left
    them, [latency_avg = latency/delivered], [hops_avg = hops/delivered] and
    [overhead_ratio = (relayed - delivered)/delivered] when [delivered > 0],
    the three staying at the 0 of [__init__] otherwise;
    [delivery_prob = delivered/created] when [created > 0] and 0 otherwise.
    The computation never raises. *)
Theorem derived_metrics_at_completion :
  (forall (rs : gmap string Q) (created delivered relayed hops latency : Q),
      rs !! "created" = Some created ->
      rs !! "delivered" = Some delivered ->
      rs !! "relayed" = Some relayed ->
      rs !! "hops" = Some hops ->
      rs !! "latency" = Some latency ->
      rs !! "latency_avg" = Some 0%Q ->
      rs !! "hops_avg" = Some 0%Q ->
      rs !! "overhead_ratio" = Some 0%Q ->
      exists rs',
        Stats.derive_metrics rs = Ok rs' /\
        ((0 < delivered)%Q ->
           rs' !! "latency_avg" = Some (latency / delivered)%Q /\
           rs' !! "hops_avg" = Some (hops / delivered)%Q /\
           rs' !! "overhead_ratio" = Some ((relayed - delivered) / delivered)%Q) /\
        ((delivered <= 0)%Q ->
           rs' !! "latency_avg" = Some 0%Q /\
           rs' !! "hops_avg" = Some 0%Q /\
           rs' !! "overhead_ratio" = Some 0%Q) /\
        ((0 < created)%Q -> rs' !! "delivery_prob" = Some (delivered / created)%Q) /\
        ((created <= 0)%Q -> rs' !! "delivery_prob" = Some 0%Q)) /\
  (forall (U X : Type)
          (extern : action X -> Q -> sim_world U -> sim_world U * list (request (task X)))
          (foreign : task X -> Q -> sim_world U -> sim_world U * list (request (task X)))
          (s : netsim) (slices fuel : nat) (e e' : env (sim_world U) (task X)),
      NetSim.run extern foreign s slices fuel e = Some (Ok e') ->
      exists e1 e2 rs1,
        perform_all extern (run_prelude s (now e)) e = (e1, Ok tt) /\
        run_loop (resume (duration s) foreign) (duration s) slices fuel e1 = Some (Ok e2) /\
        Stats.derive_metrics (routing_stats (world e2)) = Ok rs1 /\
        Stats.drop_raw_sums rs1 = Ok (routing_stats (world e'))).
Proof.
  split.
  - intros rs created delivered relayed hops latency Hc Hd Hr Hh Hl Hla Hha Hov.
    eexists. split; [now apply (derive_metrics_eq rs created delivered relayed hops latency)|].
    repeat split.
    + apply gt0_true in H. rewrite H. by simplify_map_eq.
    + apply gt0_true in H. rewrite H. by simplify_map_eq.
    + apply gt0_true in H. rewrite H. by simplify_map_eq.
    + apply gt0_false in H. rewrite H. by simplify_map_eq.
    + apply gt0_false in H. rewrite H. by simplify_map_eq.
    + apply gt0_false in H. rewrite H. by simplify_map_eq.
    + intros H. apply gt0_true in H. rewrite H. by simplify_map_eq.
    + intros H. apply gt0_false in H. rewrite H. by simplify_map_eq.
  - intros U X extern foreign s slices fuel e e' H.
    destruct (run_inv extern foreign s slices fuel e e' H)
      as (e1 & e2 & rs1 & H1 & H2 & H3 & H4 & _).
    exists e1, e2, rs1. auto.
Qed.

(** Case analysis on a successful sequence of Python statements. *)
Ltac bind_inv H :=
  repeat match type of H with
         | bind ?r _ = Ok _ =>
             let E := fresh "E" in
             destruct r eqn:E; cbn [bind] in H; [|discriminate H]
         | (if ?b then _ else _) = Ok _ =>
             let E := fresh "E" in destruct b eqn:E
         | (let _ := _ in _) = Ok _ => cbv zeta in H
         end.

Lemma derive_averages_frame (rs rs1 : gmap string Q) (k : string) :
  Stats.derive_averages rs = Ok rs1 ->
  k <> "latency_avg" -> k <> "hops_avg" -> k <> "overhead_ratio" ->
  rs1 !! k = rs !! k.
Proof.
  unfold Stats.derive_averages. intros H K1 K2 K3. bind_inv H.
  - injection H as <-. by rewrite !lookup_insert_ne.
  - by injection H as <-.
Qed.

Lemma derive_delivery_prob_frame (rs rs1 : gmap string Q) (k : string) :
  Stats.derive_delivery_prob rs = Ok rs1 ->
  k <> "delivery_prob" ->
  rs1 !! k = rs !! k.
Proof.
  unfold Stats.derive_delivery_prob. intros H K. bind_inv H;
    injection H as <-; by rewrite lookup_insert_ne.
Qed.

Lemma drop_raw_sums_inv (rs rs' : gmap string Q) :
  Stats.drop_raw_sums rs = Ok rs' ->
  rs' = delete "latency" (delete "hops" rs) /\
  is_Some (rs !! "hops") /\ is_Some (rs !! "latency").
Proof.
  unfold Stats.drop_raw_sums, delitem. intros H.
  destruct (rs !! "hops") eqn:E1; [|discriminate]. cbn [bind] in H.
  destruct (delete "hops" rs !! "latency") eqn:E2; [|discriminate].
  injection H as <-. rewrite lookup_delete_ne in E2 by done.
  rewrite E2. eauto.
Qed.

(** [C8] After [NetSim.run] the exported [routing_stats] holds neither
    ["hops"] nor ["latency"]; the two [del] statements change no other key,
    so the derived metrics are as derived, and every other counter is as the
    loop left it. *)
Theorem raw_sums_dropped_after_run :
  forall (U X : Type)
         (extern : action X -> Q -> sim_world U -> sim_world U * list (request (task X)))
         (foreign : task X -> Q -> sim_world U -> sim_world U * list (request (task X)))
         (s : netsim) (slices fuel : nat) (e e' : env (sim_world U) (task X)),
    NetSim.run extern foreign s slices fuel e = Some (Ok e') ->
    exists e1 e2 rs1,
      perform_all extern (run_prelude s (now e)) e = (e1, Ok tt) /\
      run_loop (resume (duration s) foreign) (duration s) slices fuel e1 = Some (Ok e2) /\
      Stats.derive_metrics (routing_stats (world e2)) = Ok rs1 /\
      routing_stats (world e') !! "hops" = None /\
      routing_stats (world e') !! "latency" = None /\
      (forall k, k <> "hops" -> k <> "latency" ->
                 routing_stats (world e') !! k = rs1 !! k) /\
      (forall k, k <> "hops" -> k <> "latency" ->
                 k <> "latency_avg" -> k <> "hops_avg" ->
                 k <> "overhead_ratio" -> k <> "delivery_prob" ->
                 routing_stats (world e') !! k = routing_stats (world e2) !! k) /\
      net_stats (world e') = net_stats (world e2).
Proof.
  intros U X extern foreign s slices fuel e e' H.
  destruct (run_inv extern foreign s slices fuel e e' H)
    as (e1 & e2 & rs1 & H1 & H2 & H3 & H4 & _ & _ & H5 & _).
  exists e1, e2, rs1.
  apply drop_raw_sums_inv in H4 as (-> & _ & _).
  repeat split; auto.
  - rewrite lookup_delete_ne by done. apply lookup_delete_eq.
  - apply lookup_delete_eq.
  - intros k K1 K2. by rewrite !lookup_delete_ne.
  - intros k K1 K2 K3 K4 K5 K6. rewrite !lookup_delete_ne by done.
    unfold Stats.derive_metrics in H3.
    destruct (Stats.derive_averages (routing_stats (world e2))) as [rs0|] eqn:E;
      [|discriminate].
    cbn [bind] in H3.
    rewrite (derive_delivery_prob_frame _ _ k H3) by done.
    by apply derive_averages_frame.
Qed.

(** ** The event loop *)

Lemma Qltb_lt (a b : Q) : Qltb a b = true <-> (a < b)%Q.
Proof.
  unfold Qltb. rewrite negb_true_iff, <- not_true_iff_false, Qle_bool_iff.
  split; [apply Qnot_le_lt | apply Qlt_not_le].
Qed.

Lemma Qltb_ge (a b : Q) : Qltb a b = false <-> (b <= a)%Q.
Proof. unfold Qltb. rewrite negb_false_iff. apply Qle_bool_iff. Qed.

Lemma Qle_bool_false (a b : Q) : Qle_bool a b = false <-> (b < a)%Q.
Proof.
  rewrite <- not_true_iff_false, Qle_bool_iff.
  split; [apply Qnot_le_lt | apply Qlt_not_le].
Qed.

Section EngineFacts.

Context {W T : Type}.
Variable resume_task : T -> Q -> W -> W * list (request T).

Implicit Types (e : env W T) (ev x y : event T) (q a b : list (event T)).

Lemma key_leb_lt x y : (ev_time x < ev_time y)%Q -> key_leb x y = true.
Proof. intros H. unfold key_leb. now rewrite (proj2 (Qltb_lt _ _) H). Qed.

Lemma key_leb_gt x y : (ev_time y < ev_time x)%Q -> key_leb x y = false.
Proof.
  intros H. unfold key_leb.
  rewrite (proj2 (Qltb_ge _ _)) by lra.
  destruct (Qeq_bool (ev_time x) (ev_time y)) eqn:E; [|reflexivity].
  apply Qeq_bool_iff in E. lra.
Qed.

Lemma key_leb_urgent x y :
  (ev_time x <= ev_time y)%Q -> ev_prio x = URGENT -> key_leb x y = true.
Proof.
  intros H P. unfold key_leb. rewrite P.
  destruct (Qltb (ev_time x) (ev_time y)) eqn:E; [reflexivity|].
  apply Qltb_ge in E. simpl.
  rewrite (proj2 (Qeq_bool_iff _ _)) by lra. reflexivity.
Qed.

Lemma enqueue_app_l x a y b :
  key_leb y x = false -> enqueue x (a ++ y :: b) = enqueue x a ++ y :: b.
Proof.
  intros H. induction a as [|z a IH]; simpl.
  - now rewrite H.
  - destruct (key_leb z x); [now rewrite IH | reflexivity].
Qed.

Lemma enqueue_app_r x a b :
  Forall (fun z => key_leb z x = true) a -> enqueue x (a ++ b) = a ++ enqueue x b.
Proof.
  induction 1 as [|z a Hz _ IH]; simpl; [reflexivity|].
  now rewrite Hz, IH.
Qed.

Lemma Forall_enqueue (P : event T -> Prop) x q :
  P x -> Forall P q -> Forall P (enqueue x q).
Proof.
  intros Hx. induction 1 as [|z q Hz Hq IH]; simpl.
  - by constructor.
  - destruct (key_leb z x); repeat constructor; auto.
Qed.

Lemma with_until_enqueue_early t ts qs qp x :
  (ts == t)%Q -> (ev_time x < t)%Q -> ev_what x <> Stop ->
  with_until t ts qs qp -> with_until t ts (enqueue x qs) (enqueue x qp).
Proof.
  intros Hts Hx Hs (a & b & -> & -> & Ha & Hb).
  exists (enqueue x a), b. repeat split; auto.
  - apply enqueue_app_l. apply key_leb_gt. simpl. lra.
  - destruct b as [|y b].
    + now rewrite !app_nil_r.
    + apply enqueue_app_l. apply key_leb_gt. simpl in Hb. lra.
  - now apply Forall_enqueue.
Qed.

Lemma with_until_enqueue_late t ts qs qp x :
  (ts == t)%Q -> (t <= ev_time x)%Q ->
  with_until t ts qs qp -> with_until t ts (enqueue x qs) (enqueue x qp).
Proof.
  intros Hts Hx (a & b & -> & -> & Ha & Hb).
  assert (Hpass : Forall (fun z => key_leb z x = true) a).
  { eapply Forall_impl; [exact Ha|]. intros z [Hz _]. apply key_leb_lt. lra. }
  exists a, (enqueue x b). repeat split; auto.
  - rewrite enqueue_app_r by exact Hpass. simpl.
    rewrite key_leb_urgent; [reflexivity| simpl; lra | reflexivity].
  - now apply enqueue_app_r.
  - destruct b as [|y b]; simpl; [exact Hx|].
    destruct (key_leb y x); simpl; auto.
Qed.

Lemma submit_with_until t ts (r : request T) (n : Q) (w : W) qs qp :
  (ts == t)%Q -> (n < t)%Q -> with_until t ts qs qp ->
  match submit r (Env n qs w), submit r (Env n qp w) with
  | Ok es, Ok ep =>
      now es = n /\ now ep = n /\ world es = w /\ world ep = w /\
      with_until t ts (queue es) (queue ep)
  | Raise x, Raise y => x = y
  | _, _ => False
  end.
Proof.
  intros Hts Hn Hq. destruct r as [d k|k]; simpl.
  - destruct (Qltb d 0); [reflexivity|].
    simpl. repeat split; auto.
    destruct (Qlt_le_dec (Qred (n + d)) t) as [Hlt|Hge].
    + apply with_until_enqueue_early; auto; discriminate.
    + apply with_until_enqueue_late; auto.
  - repeat split; auto.
    apply with_until_enqueue_early; auto; try discriminate.
    simpl. rewrite Qred_correct. lra.
Qed.

Lemma submit_all_with_until t ts (rs : list (request T)) (n : Q) (w : W) qs qp :
  (ts == t)%Q -> (n < t)%Q -> with_until t ts qs qp ->
  match submit_all rs (Env n qs w), submit_all rs (Env n qp w) with
  | Ok es, Ok ep =>
      now es = n /\ now ep = n /\ world es = w /\ world ep = w /\
      with_until t ts (queue es) (queue ep)
  | Raise x, Raise y => x = y
  | _, _ => False
  end.
Proof.
  intros Hts Hn. revert qs qp.
  induction rs as [|r rs IH]; intros qs qp Hq; simpl.
  - repeat split; auto.
  - pose proof (submit_with_until t ts r n w qs qp Hts Hn Hq) as H.
    destruct (submit r (Env n qs w)) as [[n1 q1 w1]|x],
             (submit r (Env n qp w)) as [[n2 q2 w2]|y]; try contradiction; simpl.
    + simpl in H. destruct H as (-> & -> & -> & -> & Hq'). now apply IH.
    + exact H.
Qed.

(** With the [until] event queued, the loop of [run] processes the events
    due before it and stops at its time. *)
Lemma steps_drain t ts (fuel : nat) :
  (ts == t)%Q ->
  forall (n1 n2 : Q) (w : W) qs qp,
    with_until t ts qs qp ->
    steps resume_task fuel (Env n1 qs w)
    = option_map (stamp_result ts) (drain resume_task fuel t (Env n2 qp w)).
Proof.
  intros Hts. induction fuel as [|fuel IH]; intros n1 n2 w qs qp Hq; [reflexivity|].
  destruct Hq as (a & b & -> & -> & Ha & Hb).
  destruct a as [|ev a]; simpl.
  - unfold step, fire. simpl.
    destruct b as [|y b]; simpl; [reflexivity|].
    simpl in Hb. now rewrite (proj2 (Qltb_ge _ _) Hb).
  - inversion Ha as [|? ? [Hev Hns] Ha']; subst.
    unfold step. simpl. rewrite (proj2 (Qltb_lt _ _) Hev).
    unfold fire. simpl.
    destruct (ev_what ev) as [|k]; [contradiction|].
    destruct (resume_task k (ev_time ev) w) as [w' rs].
    assert (Hq : with_until t ts (a ++ Event ts URGENT Stop :: b) (a ++ b)).
    { exists a, b. auto. }
    pose proof (submit_all_with_until t ts rs (ev_time ev) w' _ _ Hts Hev Hq) as H.
    destruct (submit_all rs (Env (ev_time ev) (a ++ Event ts URGENT Stop :: b) w'))
      as [[n1' q1 w1]|x],
      (submit_all rs (Env (ev_time ev) (a ++ b) w')) as [[n2' q2 w2]|y];
      try contradiction; simpl in H.
    + destruct H as (-> & -> & -> & -> & Hq'). now apply IH.
    + now subst.
Qed.

Lemma enqueue_until t ts q :
  (ts == t)%Q -> quiet_before t q ->
  with_until t ts (enqueue (Event ts URGENT Stop) q) q.
Proof.
  intros Hts. induction 1 as [|y q [Hns Hy] Hq IH]; simpl.
  - exists [], []. repeat split; auto; constructor.
  - destruct (key_leb y (Event ts URGENT Stop)) eqn:E.
    + destruct IH as (a & b & -> & Eq & Ha & Hb).
      exists (y :: a), b. repeat split; auto.
      * simpl. now rewrite <- Eq.
      * constructor; [|exact Ha]. split; [|exact Hns].
        unfold key_leb in E. simpl in E.
        apply orb_true_iff in E as [E|E].
        -- apply Qltb_lt in E. lra.
        -- apply andb_true_iff in E as [_ E].
           destruct (ev_prio y); [auto | discriminate].
    + exists [], (y :: q). repeat split; auto; try constructor.
      simpl. unfold key_leb in E. simpl in E.
      apply orb_false_iff in E as [E _]. apply Qltb_ge in E. lra.
Qed.

(** [run(until=t)] processes the events due before [t] and sets the clock
    to [t]. *)
Lemma run_drain (fuel : nat) (t : Q) e :
  (now e < t)%Q -> quiet_before t (queue e) ->
  Simpy.run resume_task fuel t e
  = option_map (stamp_result (Qred t)) (drain resume_task fuel t e).
Proof.
  intros Hn Hq. unfold Simpy.run.
  rewrite (proj2 (Qle_bool_false _ _) Hn). unfold schedule.
  assert (E : Qred (now e + (t - now e)) = Qred t) by (apply Qred_complete; ring).
  rewrite E. destruct e as [n q w]. simpl in *.
  apply steps_drain; [apply Qred_correct|].
  apply enqueue_until; [apply Qred_correct | exact Hq].
Qed.

Lemma drain_more (fuel fuel' : nat) (t : Q) e r :
  drain resume_task fuel t e = Some r -> (fuel <= fuel')%nat ->
  drain resume_task fuel' t e = Some r.
Proof.
  revert fuel' e. induction fuel as [|fuel IH]; intros fuel' e H Hle; [discriminate|].
  destruct fuel' as [|fuel']; [lia|]. simpl in *.
  destruct (queue e) as [|ev q]; [exact H|].
  destruct (Qltb (ev_time ev) t); [|exact H].
  destruct (fire resume_task ev _); auto. apply IH; [exact H | lia].
Qed.

Lemma drain_stamp (fuel : nat) (t s u : Q) e :
  option_map (stamp_result u) (drain resume_task fuel t (stamp s e))
  = option_map (stamp_result u) (drain resume_task fuel t e).
Proof.
  destruct fuel as [|fuel]; [reflexivity|]. simpl.
  destruct (queue e) as [|ev q]; [reflexivity|].
  destruct (Qltb (ev_time ev) t); reflexivity.
Qed.

Lemma submit_all_quiet (t : Q) (rs : list (request T)) (n : Q) (w : W) q e' :
  (n < t)%Q -> quiet_before t q ->
  submit_all rs (Env n q w) = Ok e' -> quiet_before t (queue e').
Proof.
  intros Hn. revert q. induction rs as [|r rs IH]; intros q Hq H; simpl in H.
  - now injection H as <-.
  - destruct r as [d k|k]; simpl in H.
    + destruct (Qltb d 0); [discriminate|]. simpl in H.
      apply IH in H; [exact H|].
      apply Forall_enqueue; [|exact Hq]. split; discriminate.
    + apply IH in H; [exact H|].
      apply Forall_enqueue; [|exact Hq]. split; [discriminate|].
      intros _. simpl. rewrite Qred_correct. lra.
Qed.

(** One event due before [t]: it is no [until] event, and the queue stays
    quiet. *)
Lemma fire_quiet (t : Q) ev q (w : W) :
  quiet_before t (ev :: q) -> (ev_time ev < t)%Q ->
  match fire resume_task ev (Env (ev_time ev) q w) with
  | Continue e' => quiet_before t (queue e')
  | Stopped _ => False
  | Failed _ => True
  end.
Proof.
  intros Hq Hev. inversion Hq as [|? ? [Hns _] Hq']; subst.
  unfold fire. destruct (ev_what ev) as [|k]; [contradiction|]. simpl.
  destruct (resume_task k (ev_time ev) w) as [w' rs].
  destruct (submit_all rs _) as [e'|x] eqn:E; [|exact I].
  eapply submit_all_quiet; [exact Hev | exact Hq' | exact E].
Qed.

Lemma drain_quiet (fuel : nat) (t t' : Q) e e' :
  (t <= t')%Q -> quiet_before t' (queue e) ->
  drain resume_task fuel t e = Some (Ok e') -> quiet_before t' (queue e').
Proof.
  intros Ht. revert e. induction fuel as [|fuel IH]; intros e Hq H; [discriminate|].
  simpl in H. destruct (queue e) as [|ev q] eqn:Eq.
  - injection H as <-. now rewrite Eq.
  - destruct (Qltb (ev_time ev) t) eqn:E.
    + apply Qltb_lt in E.
      pose proof (fire_quiet t' ev q (world e) Hq ltac:(lra)) as Hf.
      destruct (fire resume_task ev _) as [e1|e1|x]; [|contradiction|discriminate].
      now apply IH with e1.
    + injection H as <-. now rewrite Eq.
Qed.

Lemma drain_S (fuel : nat) (t : Q) e :
  drain resume_task (S fuel) t e =
  match queue e with
  | [] => Some (Ok e)
  | ev :: q =>
      if Qltb (ev_time ev) t then
        match fire resume_task ev (Env (ev_time ev) q (world e)) with
        | Continue e' => drain resume_task fuel t e'
        | Stopped e' => Some (Ok e')
        | Failed err => Some (Raise err)
        end
      else Some (Ok e)
  end.
Proof. reflexivity. Qed.

(** Processing up to [t2] goes through the state reached at [t1]. *)
Lemma drain_split (fuel : nat) (t1 t2 : Q) e r :
  (t1 <= t2)%Q -> quiet_before t2 (queue e) ->
  drain resume_task fuel t2 e = Some r ->
  (exists e1, drain resume_task fuel t1 e = Some (Ok e1) /\
              drain resume_task fuel t2 e1 = Some r)
  \/ (exists err, r = Raise err /\ drain resume_task fuel t1 e = Some (Raise err)).
Proof.
  intros Ht. revert e. induction fuel as [|fuel IH]; intros e Hq H; [discriminate|].
  rewrite drain_S in H. rewrite (drain_S fuel t1).
  destruct (queue e) as [|ev q] eqn:Eq.
  { left. exists e. split; [reflexivity|]. now rewrite drain_S, Eq. }
  destruct (Qltb (ev_time ev) t1) eqn:E1.
  2:{ left. exists e. split; [reflexivity|]. now rewrite drain_S, Eq. }
  apply Qltb_lt in E1.
  rewrite (proj2 (Qltb_lt _ _)) in H by lra.
  pose proof (fire_quiet t2 ev q (world e) Hq ltac:(lra)) as Hf.
  destruct (fire resume_task ev _) as [e'|e'|err] eqn:Ef; [|contradiction|].
  - destruct (IH e' Hf H) as [(e1 & H1 & H2)|(err & -> & H1)].
    + left. exists e1. split; [exact H1|].
      apply drain_more with (fuel := fuel); [exact H2 | lia].
    + right. exists err. auto.
  - injection H as <-. right. exists err. auto.
Qed.

(** Processing up to [t1] and then up to [t2] is processing up to [t2]. *)
Lemma drain_join (fuel1 fuel2 : nat) (t1 t2 : Q) e e1 r :
  (t1 <= t2)%Q -> quiet_before t1 (queue e) ->
  drain resume_task fuel1 t1 e = Some (Ok e1) ->
  drain resume_task fuel2 t2 e1 = Some r ->
  drain resume_task (fuel1 + fuel2) t2 e = Some r.
Proof.
  intros Ht. revert e.
  induction fuel1 as [|fuel1 IH]; intros e Hq H1 H2; [discriminate|].
  rewrite drain_S in H1.
  destruct (queue e) as [|ev q] eqn:Eq.
  { injection H1 as <-. apply drain_more with (fuel := fuel2); [exact H2 | lia]. }
  destruct (Qltb (ev_time ev) t1) eqn:E1.
  2:{ injection H1 as <-. apply drain_more with (fuel := fuel2); [exact H2 | lia]. }
  apply Qltb_lt in E1. change (S fuel1 + fuel2)%nat with (S (fuel1 + fuel2)).
  rewrite drain_S, Eq, (proj2 (Qltb_lt _ _)) by lra.
  pose proof (fire_quiet t1 ev q (world e) Hq E1) as Hf.
  destruct (fire resume_task ev _) as [e'|e'|err]; [|contradiction|discriminate].
  now apply IH.
Qed.

Lemma drain_raise_later (fuel : nat) (t1 t2 : Q) e err :
  (t1 <= t2)%Q ->
  drain resume_task fuel t1 e = Some (Raise err) ->
  drain resume_task fuel t2 e = Some (Raise err).
Proof.
  intros Ht. revert e. induction fuel as [|fuel IH]; intros e H; [discriminate|].
  rewrite drain_S in H |- *.
  destruct (queue e) as [|ev q]; [discriminate|].
  destruct (Qltb (ev_time ev) t1) eqn:E1; [|discriminate].
  apply Qltb_lt in E1. rewrite (proj2 (Qltb_lt _ _)) by lra.
  destruct (fire resume_task ev _) as [e'|e'|err']; auto; discriminate.
Qed.

Lemma ready_quiet (t : Q) e : ready e -> (now e < t)%Q -> quiet_before t (queue e).
Proof.
  intros Hr Hn. eapply Forall_impl; [exact Hr|].
  intros ev [Hns Hu]. split; [exact Hns|]. intros P. specialize (Hu P). lra.
Qed.

Lemma stamp_ready (t : Q) e : quiet_before t (queue e) -> ready (stamp (Qred t) e).
Proof.
  intros Hq. eapply Forall_impl; [exact Hq|].
  intros ev [Hns Hu]. split; [exact Hns|]. intros P. specialize (Hu P).
  simpl. rewrite Qred_correct. lra.
Qed.

(** [run] returns with the clock at its [until] time, ready for the next
    call. *)
Lemma run_returns (fuel : nat) (t : Q) e e' :
  ready e -> (now e < t)%Q ->
  Simpy.run resume_task fuel t e = Some (Ok e') ->
  now e' = Qred t /\ ready e'.
Proof.
  intros Hr Hn H. rewrite run_drain in H by (auto using ready_quiet).
  destruct (drain resume_task fuel t e) as [[e1|err]|] eqn:E; try discriminate.
  injection H as <-. split; [reflexivity|].
  apply stamp_ready. eapply drain_quiet; [| |exact E]; [lra|].
  now apply ready_quiet.
Qed.

(** A call of [run] up to [t2] can be cut at [t1]. *)
Lemma run_split (fuel : nat) (t1 t2 : Q) e r :
  ready e -> (now e < t1)%Q -> (t1 < t2)%Q ->
  Simpy.run resume_task fuel t2 e = Some r ->
  (exists e1, Simpy.run resume_task fuel t1 e = Some (Ok e1) /\
              Simpy.run resume_task fuel t2 e1 = Some r)
  \/ (exists err, r = Raise err /\ Simpy.run resume_task fuel t1 e = Some (Raise err)).
Proof.
  intros Hr Hn Ht H.
  assert (Hq2 : quiet_before t2 (queue e)) by (apply ready_quiet; [auto | lra]).
  assert (Hq1 : quiet_before t1 (queue e)) by (apply ready_quiet; [auto | lra]).
  rewrite run_drain in H by (auto; lra).
  rewrite (run_drain fuel t1) by auto.
  destruct (drain resume_task fuel t2 e) as [r0|] eqn:E; [|discriminate].
  injection H as <-.
  destruct (drain_split fuel t1 t2 e r0 ltac:(lra) Hq2 E)
    as [(e1 & H1 & H2)|(err & -> & H1)].
  - left. exists (stamp (Qred t1) e1). rewrite H1. split; [reflexivity|].
    assert (Hq : quiet_before t1 (queue e1)).
    { eapply drain_quiet; [| |exact H1]; [lra | exact Hq1]. }
    rewrite run_drain.
    + now rewrite drain_stamp, H2.
    + simpl. rewrite Qred_correct. exact Ht.
    + eapply Forall_impl; [exact Hq|]. intros ev [Hns Hu]. split; [exact Hns|].
      intros P. specialize (Hu P). lra.
  - right. exists err. rewrite H1. auto.
Qed.

(** Two calls of [run] in a row are one call up to the later time. *)
Lemma run_join (fuel1 fuel2 : nat) (t1 t2 : Q) e e1 r :
  ready e -> (now e < t1)%Q -> (t1 < t2)%Q ->
  Simpy.run resume_task fuel1 t1 e = Some (Ok e1) ->
  Simpy.run resume_task fuel2 t2 e1 = Some r ->
  Simpy.run resume_task (fuel1 + fuel2) t2 e = Some r.
Proof.
  intros Hr Hn Ht H1 H2.
  destruct (run_returns _ _ _ _ Hr Hn H1) as [Hn1 Hr1].
  assert (Hq1 : quiet_before t1 (queue e)) by (apply ready_quiet; [auto | lra]).
  rewrite run_drain in H1 by auto.
  destruct (drain resume_task fuel1 t1 e) as [[e0|err]|] eqn:E1; try discriminate.
  injection H1 as <-.
  rewrite run_drain in H2.
  2:{ simpl. rewrite Qred_correct. exact Ht. }
  2:{ apply ready_quiet; [exact Hr1|]. rewrite Hn1, Qred_correct. exact Ht. }
  rewrite drain_stamp in H2.
  destruct (drain resume_task fuel2 t2 e0) as [r0|] eqn:E2; [|discriminate].
  injection H2 as <-.
  rewrite run_drain by (try apply ready_quiet; auto; lra).
  now rewrite (drain_join fuel1 fuel2 t1 t2 e e0 r0) by (auto; lra).
Qed.

Lemma run_raise_later (fuel : nat) (t1 t2 : Q) e err :
  ready e -> (now e < t1)%Q -> (t1 < t2)%Q ->
  Simpy.run resume_task fuel t1 e = Some (Raise err) ->
  Simpy.run resume_task fuel t2 e = Some (Raise err).
Proof.
  intros Hr Hn Ht H.
  rewrite run_drain in H by (try apply ready_quiet; auto; lra).
  rewrite run_drain by (try apply ready_quiet; auto; lra).
  destruct (drain resume_task fuel t1 e) as [[e0|err0]|] eqn:E; try discriminate.
  injection H as ->.
  now rewrite (drain_raise_later fuel t1 t2 e err) by (auto; lra).
Qed.

Lemma run_more (fuel fuel' : nat) (t : Q) e r :
  ready e -> (now e < t)%Q ->
  Simpy.run resume_task fuel t e = Some r -> (fuel <= fuel')%nat ->
  Simpy.run resume_task fuel' t e = Some r.
Proof.
  intros Hr Hn H Hle.
  rewrite run_drain in H |- * by (try apply ready_quiet; auto).
  destruct (drain resume_task fuel t e) as [r0|] eqn:E; [|discriminate].
  now rewrite (drain_more fuel fuel' t e r0 E Hle).
Qed.

End EngineFacts.

(** ** The loop of [NetSim.run] *)

Section LoopFacts.

Context {W T : Type}.
Variable resume_task : T -> Q -> W -> W * list (request T).
Variable D : Z.

Implicit Types (e : env W T).

Local Abbreviation horizon := (inject_Z D + 1)%Q (only parsing).

Lemma run_loop_done (slices fuel : nat) e :
  (horizon <= now e)%Q -> run_loop resume_task D slices fuel e = Some (Ok e).
Proof.
  intros H. destruct slices; simpl; now rewrite (proj2 (Qltb_ge _ _) H).
Qed.

Lemma run_loop_S (slices fuel : nat) e :
  (now e < horizon)%Q ->
  run_loop resume_task D (S slices) fuel e =
  match Simpy.run resume_task fuel (Qmin horizon (now e + 5)) e with
  | Some (Ok e') => run_loop resume_task D slices fuel e'
  | other => other
  end.
Proof. intros H. simpl. now rewrite (proj2 (Qltb_lt _ _) H). Qed.

(** Python's [min] on the two candidates for [next_stop]. *)
Lemma next_stop_cases (n : Q) :
  (horizon <= n + 5 /\ Qmin horizon (n + 5) = horizon)%Q
  \/ (n + 5 < horizon /\ Qmin horizon (n + 5) = n + 5)%Q.
Proof.
  unfold Qmin, GenericMinMax.gmin.
  destruct (horizon ?= n + 5)%Q eqn:C.
  - left. apply Qeq_alt in C. split; [lra | reflexivity].
  - left. apply Qlt_alt in C. split; [lra | reflexivity].
  - right. apply Qgt_alt in C. split; [lra | reflexivity].
Qed.

Lemma slices_needed_enough (n : Q) :
  (horizon - n <= 5 * inject_Z (Z.of_nat (slices_needed D n)))%Q.
Proof.
  unfold slices_needed.
  set (x := ((horizon - n) / 5)%Q).
  assert (H1 : (x <= inject_Z (Qceiling x))%Q) by apply Qle_ceiling.
  assert (H2 : (inject_Z (Qceiling x) <= inject_Z (Z.of_nat (Z.to_nat (Qceiling x))))%Q).
  { rewrite <- Zle_Qle. lia. }
  assert (H3 : (horizon - n == 5 * x)%Q) by (unfold x; field).
  lra.
Qed.

(** The sliced loop reaches whatever one call up to [duration + 1]
    reaches. *)
Lemma loop_of_single (fuel : nat) (r : result (env W T)) :
  forall (slices : nat) e,
    ready e -> (now e < horizon)%Q ->
    (horizon - now e <= 5 * inject_Z (Z.of_nat slices))%Q ->
    Simpy.run resume_task fuel horizon e = Some r ->
    run_loop resume_task D slices fuel e = Some r.
Proof.
  induction slices as [|slices IH]; intros e Hr Hn Hm H.
  - change (inject_Z (Z.of_nat 0)) with 0%Q in Hm. lra.
  - rewrite run_loop_S by exact Hn.
    destruct (next_stop_cases (now e)) as [[Hc ->]|[Hc ->]].
    + rewrite H. destruct r as [e'|err]; [|reflexivity].
      apply run_loop_done.
      destruct (run_returns resume_task _ _ _ _ Hr Hn H) as [-> _].
      rewrite Qred_correct. lra.
    + destruct (run_split resume_task fuel (now e + 5) horizon e r Hr ltac:(lra) Hc H)
        as [(e1 & H1 & H2)|(err & -> & H1)]; rewrite H1; [|reflexivity].
      destruct (run_returns resume_task fuel (now e + 5) e e1 Hr ltac:(lra) H1) as [Hn1 Hr1].
      apply IH; auto.
      * rewrite Hn1, Qred_correct. exact Hc.
      * rewrite Hn1, Qred_correct.
        assert (E : (inject_Z (Z.of_nat (S slices)) == inject_Z (Z.of_nat slices) + 1)%Q).
        { rewrite Nat2Z.inj_succ, <- Z.add_1_r, inject_Z_plus. reflexivity. }
        lra.
Qed.

(** One call up to [duration + 1] reaches whatever the sliced loop
    reaches. *)
Lemma single_of_loop (fuel : nat) (r : result (env W T)) :
  forall (slices : nat) e,
    ready e -> (now e < horizon)%Q ->
    run_loop resume_task D slices fuel e = Some r ->
    Simpy.run resume_task (slices * fuel) horizon e = Some r.
Proof.
  induction slices as [|slices IH]; intros e Hr Hn H.
  - simpl in H. rewrite (proj2 (Qltb_lt _ _) Hn) in H. discriminate.
  - rewrite run_loop_S in H by exact Hn.
    change (S slices * fuel)%nat with (fuel + slices * fuel)%nat.
    destruct (next_stop_cases (now e)) as [[Hc E]|[Hc E]]; rewrite E in H.
    + destruct (Simpy.run resume_task fuel horizon e) as [[e1|err]|] eqn:H1;
        [| |discriminate].
      * destruct (run_returns resume_task _ _ _ _ Hr Hn H1) as [Hn1 _].
        rewrite run_loop_done in H by (rewrite Hn1, Qred_correct; lra).
        injection H as <-.
        apply run_more with (fuel := fuel); auto. lia.
      * injection H as <-. apply run_more with (fuel := fuel); auto. lia.
    + destruct (Simpy.run resume_task fuel (now e + 5) e) as [[e1|err]|] eqn:H1;
        [| |discriminate].
      * destruct (run_returns resume_task fuel (now e + 5) e e1 Hr ltac:(lra) H1) as [Hn1 Hr1].
        apply run_join with (t1 := (now e + 5)%Q) (e1 := e1); auto; [lra|].
        apply IH; auto. rewrite Hn1, Qred_correct. exact Hc.
      * injection H as <-.
        apply run_more with (fuel := fuel); auto; [|lia].
        apply run_raise_later with (t1 := (now e + 5)%Q); auto. lra.
Qed.

End LoopFacts.

(** ** Calls made outside the loop *)

Section PerformFacts.

Context {U X : Type}.
Variable extern : action X -> Q -> sim_world U -> sim_world U * list (request (task X)).

Implicit Types (e : env (sim_world U) (task X)).

Lemma submit_ready {W T : Type} (r : request T) (e e' : env W T) :
  ready e -> submit r e = Ok e' -> ready e' /\ now e' = now e.
Proof.
  intros Hr H. destruct r as [d k|k]; simpl in H.
  - destruct (Qltb d 0); [discriminate|]. injection H as <-. split; [|reflexivity].
    apply Forall_enqueue; [|exact Hr]. split; discriminate.
  - injection H as <-. split; [|reflexivity].
    apply Forall_enqueue; [|exact Hr]. split; [discriminate|].
    intros _. simpl. rewrite Qred_correct. lra.
Qed.

Lemma submit_all_ready {W T : Type} (rs : list (request T)) (e e' : env W T) :
  ready e -> submit_all rs e = Ok e' -> ready e' /\ now e' = now e.
Proof.
  revert e. induction rs as [|r rs IH]; intros e Hr H; simpl in H.
  - injection H as <-. auto.
  - destruct (submit r e) as [e1|err] eqn:E; [|discriminate]. simpl in H.
    destruct (submit_ready r e e1 Hr E) as [Hr1 <-]. now apply IH.
Qed.

Lemma perform_ready (a : action X) e e' :
  ready e -> perform extern a e = Ok e' -> ready e' /\ now e' = now e.
Proof.
  intros Hr H.
  assert (Hext : forall w rs, submit_all rs (with_world w e) = Ok e' ->
                              ready e' /\ now e' = now e).
  { intros w rs E. now apply (submit_all_ready rs (with_world w e)). }
  destruct a; simpl in H;
    try (injection H as <-; now split);
    try (destruct (extern _ (now e) (world e)) as [w rs]; now apply (Hext w rs)).
  now apply (submit_ready (StartProcess t) e).
Qed.

Lemma perform_all_ready (acts : list (action X)) e e' (r : result unit) :
  ready e -> perform_all extern acts e = (e', r) -> ready e' /\ now e' = now e.
Proof.
  revert e. induction acts as [|a acts IH]; intros e Hr H; simpl in H.
  - injection H as <- <-. auto.
  - destruct (perform extern a e) as [e1|err] eqn:E.
    + destruct (perform_ready a e e1 Hr E) as [Hr1 <-]. now apply IH.
    + injection H as <- <-. auto.
Qed.

End PerformFacts.

(** ** Termination and slicing of the loop *)

(** A concrete environment is ready for [run]. *)
Ltac ready_by_computation :=
  unfold ready;
  match goal with
  | |- Forall _ ?q => let q' := eval vm_compute in q in change q with q'
  end;
  repeat constructor; try discriminate; intros _; vm_compute; discriminate.

Lemma demo_env_ready : ready Scenario.demo_env.
Proof. ready_by_computation. Defined.




(** [C3] Slicing does not change the outcome: the loop of [NetSim.run] and a
    single call of the engine up to [duration + 1] end in the same state
    (clock, queue, world) or with the same exception, for the loop alone and
    for [run] as a whole, statistics included. *)
Theorem slicing_preserves_outcome :
  (forall (W T : Type) (resume_task : T -> Q -> W -> W * list (request T)) (D : Z)
          (e : env W T),
      ready e ->
      (forall fuel r,
          run_single resume_task D fuel e = Some r ->
          run_loop resume_task D (slices_needed D (now e)) fuel e = Some r) /\
      (forall slices fuel r,
          run_loop resume_task D slices fuel e = Some r ->
          run_single resume_task D (slices * fuel) e = Some r)) /\
  (forall (U X : Type)
          (extern : action X -> Q -> sim_world U -> sim_world U * list (request (task X)))
          (foreign : task X -> Q -> sim_world U -> sim_world U * list (request (task X)))
          (s : netsim) (e : env (sim_world U) (task X)),
      ready e ->
      (forall fuel r,
          run_unsliced extern foreign s fuel e = Some r ->
          NetSim.run extern foreign s (slices_needed (duration s) (now e)) fuel e = Some r) /\
      (forall slices fuel r,
          NetSim.run extern foreign s slices fuel e = Some r ->
          run_unsliced extern foreign s (slices * fuel) e = Some r)).
Proof.
  assert (Hloop : forall (W T : Type) (resume_task : T -> Q -> W -> W * list (request T))
                         (D : Z) (e : env W T),
             ready e ->
             (forall fuel r,
                 run_single resume_task D fuel e = Some r ->
                 run_loop resume_task D (slices_needed D (now e)) fuel e = Some r) /\
             (forall slices fuel r,
                 run_loop resume_task D slices fuel e = Some r ->
                 run_single resume_task D (slices * fuel) e = Some r)).
  { intros W T resume_task D e Hr. unfold run_single.
    destruct (Qltb (now e) (inject_Z D + 1)) eqn:E.
    - apply Qltb_lt in E. split.
      + intros fuel r H. apply loop_of_single; auto. apply slices_needed_enough.
      + intros slices fuel r H. now apply single_of_loop.
    - apply Qltb_ge in E. split.
      + intros fuel r H. now rewrite run_loop_done.
      + intros slices fuel r H. now rewrite run_loop_done in H. }
  split; [exact Hloop|].
  intros U X extern foreign s e Hr. unfold NetSim.run, run_unsliced.
  destruct (perform_all extern (run_prelude s (now e)) e) as [e1 [[]|err]] eqn:E1;
    [|split; auto].
  destruct (perform_all_ready extern _ _ _ _ Hr E1) as [Hr1 Hn1].
  destruct (Hloop _ _ (resume (duration s) foreign) (duration s) e1 Hr1) as [HA HB].
  rewrite Hn1 in HA. split.
  - intros fuel r H.
    destruct (run_single _ _ fuel e1) as [r1|] eqn:E2; [|discriminate].
    rewrite (HA fuel r1 E2). exact H.
  - intros slices fuel r H.
    destruct (run_loop _ _ slices fuel e1) as [r1|] eqn:E2; [|discriminate].
    rewrite (HB slices fuel r1 E2). exact H.
Qed.

(** ** Calls as they are executed *)

(** [event_log] adds records of the call, in order, and nothing else. *)
Lemma emit_log {U : Type} (rs : list log_record) (w : sim_world U) :
  exists kept,
    event_log (emit rs w) = event_log w ++ kept /\
    (forall r, In r kept -> In r rs) /\
    is_logging (emit rs w) = is_logging w /\
    routing_stats (emit rs w) = routing_stats w /\
    net_stats (emit rs w) = net_stats w /\
    event_filter (emit rs w) = event_filter w /\
    user (emit rs w) = user w.
Proof.
  unfold emit. destruct (is_logging w) eqn:E.
  - eexists. simpl. split; [reflexivity|]. split; [|auto].
    intros r Hr. now apply filter_In in Hr as [Hr _].
  - exists []. rewrite app_nil_r. split; [reflexivity|]. split; [intros r []|auto].
Qed.

Lemma enqueue_In {W T : Type} (x y : event T) (q : list (event T)) :
  In y (enqueue x q) <-> y = x \/ In y q.
Proof.
  induction q as [|z q IH]; simpl.
  - split; [intros [H|[]]; auto | intros [H|[]]; auto].
  - destruct (key_leb z x); simpl; rewrite ?IH; split; intros H; tauto || intuition auto.
Qed.

Lemma submit_queue {W T : Type} (r : request T) (e e' : env W T) :
  submit r e = Ok e' ->
  incl (queue e) (queue e') /\ now e' = now e /\ world e' = world e.
Proof.
  intros H. destruct r as [d k|k]; simpl in H.
  - destruct (Qltb d 0); [discriminate|]. injection H as <-. simpl.
    split; [|auto]. intros y Hy. apply (enqueue_In (W := W)). auto.
  - injection H as <-. simpl. split; [|auto].
    intros y Hy. apply (enqueue_In (W := W)). auto.
Qed.

Lemma submit_all_queue {W T : Type} (rs : list (request T)) :
  forall e e' : env W T,
    submit_all rs e = Ok e' ->
    incl (queue e) (queue e') /\ now e' = now e /\ world e' = world e.
Proof.
  induction rs as [|r rs IH]; intros e e' H; simpl in H.
  - injection H as <-. split; [apply incl_refl|auto].
  - destruct (submit r e) as [e1|err] eqn:E; [|discriminate]. cbn [bind] in H.
    destruct (submit_queue r e e1 E) as (H1 & H2 & H3).
    destruct (IH e1 e' H) as (H4 & H5 & H6).
    split; [eapply incl_tran; eauto|]. split; congruence.
Qed.


Section CallFacts.

Context {U X : Type}.
Variable extern : action X -> Q -> sim_world U -> sim_world U * list (request (task X)).

Implicit Types (e : env (sim_world U) (task X)).

(** A call keeps what is queued and the clock. *)
Lemma perform_queue (a : action X) e e' :
  perform extern a e = Ok e' -> incl (queue e) (queue e') /\ now e' = now e.
Proof.
  intros H.
  assert (Hext : forall w rs, submit_all rs (with_world w e) = Ok e' ->
                              incl (queue e) (queue e') /\ now e' = now e).
  { intros w rs E. destruct (submit_all_queue rs _ _ E) as (H1 & H2 & _). auto. }
  destruct a; simpl in H;
    try (injection H as <-; split; [apply incl_refl|reflexivity]);
    try (destruct (extern _ (now e) (world e)) as [w rs]; now apply (Hext w rs)).
  destruct (submit_queue (StartProcess t) e e' H) as (H1 & H2 & _). auto.
Qed.


Lemma perform_all_queue (acts : list (action X)) :
  forall e e' (r : result unit),
    perform_all extern acts e = (e', r) -> incl (queue e) (queue e') /\ now e' = now e.
Proof.
  induction acts as [|a acts IH]; intros e e' r H; simpl in H.
  - injection H as <- _. split; [apply incl_refl|reflexivity].
  - destruct (perform extern a e) as [e1|err] eqn:E.
    + destruct (perform_queue a e e1 E) as [H1 H2].
      destruct (IH e1 e' r H) as [H3 H4].
      split; [eapply incl_tran; eauto|congruence].
    + injection H as <- _. split; [apply incl_refl|reflexivity].
Qed.


(** Once all the calls have been made, every [env.process(t)] among them
    has left the start of [t] in the queue, urgent and due at once. *)
Lemma perform_all_registers (acts : list (action X)) :
  forall e e' (t : task X),
    perform_all extern acts e = (e', Ok tt) -> In (EnvProcess t) acts ->
    In (Event (Qred (now e + 0)) URGENT (Resume t)) (queue e').
Proof.
  induction acts as [|a acts IH]; intros e e' t H Hin; [contradiction|]. simpl in H.
  destruct (perform extern a e) as [e1|err] eqn:E; [|discriminate].
  destruct (perform_queue a e e1 E) as [_ Hnow].
  destruct Hin as [->|Hin].
  - destruct (perform_all_queue acts e1 e' _ H) as [Hincl _]. apply Hincl.
    simpl in E. injection E as <-. simpl. apply (enqueue_In (W := sim_world U)). auto.
  - rewrite <- Hnow. now apply (IH e1).
Qed.

End CallFacts.

(** The recording stand-in receives the calls meant for the node, interface
    and mover classes, in order, and never raises. *)
Lemma perform_all_recorder {X : Type} (acts : list (action X)) :
  forall e : env (sim_world (list (action X))) (task X),
    exists e1,
      perform_all recorder acts e = (e1, Ok tt) /\ now e1 = now e /\
      user (world e1) = user (world e) ++ external acts.
Proof.
  induction acts as [|a acts IH]; intros e.
  - exists e. simpl. now rewrite app_nil_r.
  - assert (Hstep : exists e0, perform recorder a e = Ok e0 /\ now e0 = now e /\
                               user (world e0) = user (world e) ++ external [a]).
    { destruct a; simpl; eexists; (split; [reflexivity|]); simpl;
        rewrite ?app_nil_r; try (split; reflexivity).
      destruct (emit_log [r] (world e)) as (_ & _ & _ & _ & _ & _ & _ & Hu).
      split; [reflexivity|exact Hu]. }
    destruct Hstep as (e0 & E0 & Hn0 & Hu0). destruct (IH e0) as (e1 & E1 & Hn1 & Hu1).
    exists e1. simpl perform_all. rewrite E0. split; [exact E1|]. split; [congruence|].
    rewrite Hu1, Hu0, <- app_assoc. f_equal.
    change (a :: acts) with ([a] ++ acts). unfold external. now rewrite List.filter_app.
Qed.

(** ** The calls of [run] before its loop *)



Lemma filter_none {A : Type} (f : A -> bool) (l : list A) :
  (forall a, In a l -> f a = false) -> List.filter f l = [].
Proof.
  induction l as [|x l IH]; intros H; simpl; [reflexivity|].
  rewrite (H x (or_introl eq_refl)). apply IH. intros a Ha. apply H. now right.
Qed.

Lemma filter_all {A : Type} (f : A -> bool) (l : list A) :
  (forall a, In a l -> f a = true) -> List.filter f l = l.
Proof.
  induction l as [|x l IH]; intros H; simpl; [reflexivity|].
  rewrite (H x (or_introl eq_refl)). f_equal. apply IH. intros a Ha. apply H. now right.
Qed.



(** ** Setup *)

Lemma start_msggen_cases {X : Type} (g : gmap string value) :
  (known_type g /\ exists t, @start_msggen X g = Ok (EnvProcess t)) \/
  (~ known_type g /\
   @start_msggen X g = Raise (Exception "unknown message generator type")).
Proof.
  unfold known_type, start_msggen.
  destruct (g !! "type") as [[| | | |ty| |]|] eqn:E;
    try (left; split; [tauto | eauto]; fail);
    try (right; split; [intros [H|[H|[H|H]]]; discriminate | reflexivity]; fail).
  destruct (String.eqb ty "single") eqn:E1.
  { apply String.eqb_eq in E1. subst. left. split; [tauto | eauto]. }
  destruct (String.eqb ty "burst") eqn:E2.
  { apply String.eqb_eq in E2. subst. left. split; [tauto | eauto]. }
  right. split; [|reflexivity].
  apply String.eqb_neq in E1, E2.
  intros [H|[H|[H|H]]]; try discriminate; injection H as ->; contradiction.
Qed.

Lemma start_msggens_unknown {X : Type} (good rest : list (gmap string value))
    (bad : gmap string value) :
  Forall known_type good -> ~ known_type bad ->
  exists ts,
    @start_msggens X (good ++ bad :: rest)
    = (map EnvProcess ts, Raise (Exception "unknown message generator type")) /\
    Forall2 (fun g t => @start_msggen X g = Ok (EnvProcess t)) good ts.
Proof.
  intros Hgood Hbad. induction Hgood as [|g good Hg _ (ts & IH & Hts)]; simpl.
  - destruct (@start_msggen_cases X bad) as [[Hk _]|[_ ->]]; [contradiction|].
    exists []. split; [reflexivity|constructor].
  - destruct (@start_msggen_cases X g) as [[_ [t Ht]]|[Hn _]]; [|contradiction].
    rewrite Ht, IH. exists (t :: ts). split; [reflexivity|]. now constructor.
Qed.

Lemma start_msggens_result {X : Type} (gens : list (gmap string value)) :
  (snd (@start_msggens X gens) = Ok tt /\ Forall known_type gens) \/
  (snd (@start_msggens X gens) = Raise (Exception "unknown message generator type") /\
   exists good bad rest, gens = good ++ bad :: rest /\
                         Forall known_type good /\ ~ known_type bad).
Proof.
  induction gens as [|g gens IH]; simpl.
  - left. split; [reflexivity|constructor].
  - destruct (@start_msggen_cases X g) as [[Hk [t Ht]]|[Hn Hr]].
    + rewrite Ht. destruct (start_msggens gens) as [acts r]. simpl in IH |- *.
      destruct IH as [[-> Hall]|[-> (good & bad & rest & -> & Hgood & Hbad)]].
      * left. split; [reflexivity|]. now constructor.
      * right. split; [reflexivity|].
        exists (g :: good), bad, rest. repeat split; auto.
    + rewrite Hr. right. split; [reflexivity|].
      exists [], g, gens. repeat split; auto.
Qed.


(** [setup] by the outcome of its loop over the generators. *)
Lemma setup_eq {X : Type} (s : netsim) :
  @setup X s
  = match (match msggens s with
           | Some gens => start_msggens gens
           | None => ([], Ok tt)
           end) with
    | (gens, Raise x) =>
        ((match movements s with Some (_ :: _) => [MoverStart] | _ => [] end)
         ++ (match config s with Some cfg => setup_config cfg | None => [] end)
         ++ map (fun n => NodeStart (node_id n)) (node_values s) ++ gens, Raise x)
    | (gens, Ok _) =>
        ((match movements s with Some (_ :: _) => [MoverStart] | _ => [] end)
         ++ (match config s with Some cfg => setup_config cfg | None => [] end)
         ++ map (fun n => NodeStart (node_id n)) (node_values s) ++ gens
         ++ map (fun n => CalcNeighbors 0 (node_id n)) (node_values s), Ok tt)
    end.
Proof.
  unfold setup.
  destruct (match msggens s with Some gens => start_msggens gens | None => ([], Ok tt) end)
    as [gens [u|x]]; reflexivity.
Qed.

Lemma setup_result {X : Type} (s : netsim) :
  snd (@setup X s)
  = match msggens s with
    | Some gens => snd (@start_msggens X gens)
    | None => Ok tt
    end.
Proof.
  rewrite setup_eq. destruct (msggens s) as [gens|]; [|reflexivity].
  destruct (start_msggens gens) as [acts [[]|x]]; reflexivity.
Qed.

Lemma setup_generators {X : Type} (s : netsim) (gens : list (gmap string value))
    (a : action X) :
  msggens s = Some gens -> In a (fst (@start_msggens X gens)) -> In a (fst (@setup X s)).
Proof.
  intros Hs Ha. rewrite setup_eq, Hs.
  destruct (start_msggens gens) as [acts [u|x]]; simpl in Ha |- *;
    rewrite !in_app_iff; auto.
Qed.

(** The generators up to the first one of an unknown type are started. *)
Lemma start_msggens_prefix {X : Type} (good rest : list (gmap string value))
    (g : gmap string value) (a : action X) :
  Forall known_type good -> start_msggen g = Ok a ->
  In a (fst (@start_msggens X (good ++ g :: rest))).
Proof.
  intros Hgood Hg. induction Hgood as [|g0 good H0 _ IH]; simpl.
  - rewrite Hg. destruct (start_msggens rest) as [acts r]. simpl. auto.
  - destruct (@start_msggen_cases X g0) as [[_ [t Ht]]|[Hn _]]; [|contradiction].
    rewrite Ht. destruct (start_msggens (good ++ g :: rest)) as [acts r]. simpl in IH |- *.
    auto.
Qed.

Lemma start_msggens_processes {X : Type} (gens : list (gmap string value)) (a : action X) :
  In a (fst (@start_msggens X gens)) ->
  exists g, In g gens /\ known_type g /\ start_msggen g = Ok a /\
            (a = EnvProcess (MessageEventGenerator g None) \/
             a = EnvProcess (MessageBurstGenerator g None)).
Proof.
  induction gens as [|g gens IH]; intros Ha; [contradiction|]. simpl in Ha.
  destruct (@start_msggen_cases X g) as [[Hk [t Ht]]|[_ Hr]].
  - rewrite Ht in Ha. destruct (start_msggens gens) as [acts r]. simpl in Ha, IH.
    destruct Ha as [<-|Ha].
    + exists g. split; [now left|]. split; [exact Hk|]. split; [exact Ht|].
      unfold start_msggen in Ht.
      destruct (g !! "type") as [[| | | |ty| |]|]; try discriminate;
        try (injection Ht as <-; now left).
      destruct (String.eqb ty "single"); [injection Ht as <-; now left|].
      destruct (String.eqb ty "burst"); [injection Ht as <-; now right|discriminate].
    + destruct (IH Ha) as (g' & Hin & H'). exists g'. split; [now right|exact H'].
  - rewrite Hr in Ha. contradiction.
Qed.

(** When [setup] returns it has scanned the distances for every node, with
    or without a contact plan (lines 111-112); when it raises it has not. *)
Lemma seeding_setup {X : Type} (s : netsim) :
  seeding (fst (@setup X s))
  = match snd (@setup X s) with
    | Ok _ => map (fun n => CalcNeighbors 0 (node_id n)) (node_values s)
    | Raise _ => []
    end.
Proof.
  assert (Hm : seeding (match movements s with
                        | Some (_ :: _) => [@MoverStart X]
                        | _ => []
                        end) = []).
  { destruct (movements s) as [[|? ?]|]; reflexivity. }
  assert (Hc : seeding (match config s with
                        | Some cfg => @setup_config X cfg
                        | None => []
                        end) = []).
  { destruct (config s) as [cfg|]; [|reflexivity]. unfold setup_config.
    destruct (truthy _), (truthy _), (truthy _); reflexivity. }
  assert (Hn : seeding (map (fun n => @NodeStart X (node_id n)) (node_values s)) = []).
  { apply filter_none. intros a H. apply in_map_iff in H as (n & <- & _). reflexivity. }
  assert (Hg : forall gens, seeding (fst (@start_msggens X gens)) = []).
  { intros gens. apply filter_none. intros a H.
    destruct (start_msggens_processes gens a H) as (g & _ & _ & _ & [->| ->]); reflexivity. }
  assert (Hs : seeding (map (fun n => @CalcNeighbors X 0 (node_id n)) (node_values s))
               = map (fun n => CalcNeighbors 0 (node_id n)) (node_values s)).
  { apply filter_all. intros a H. apply in_map_iff in H as (n & <- & _). reflexivity. }
  rewrite setup_eq.
  destruct (msggens s) as [gens|].
  - specialize (Hg gens). destruct (start_msggens gens) as [acts [u|x]]; simpl in Hg |- *;
      unfold seeding in *; rewrite !List.filter_app, Hm, Hc, Hn, Hg, ?Hs; reflexivity.
  - simpl. unfold seeding in *. rewrite !List.filter_app, Hm, Hc, Hn, Hs. reflexivity.
Qed.

Lemma do_setup_eq {U X : Type}
    (extern : action X -> Q -> sim_world U -> sim_world U * list (request (task X)))
    (s : netsim) (e : env (sim_world U) (task X)) :
  do_setup extern s e
  = (fst (perform_all extern (fst (@setup X s)) e),
     match snd (perform_all extern (fst (@setup X s)) e) with
     | Raise x => Raise x
     | Ok _ => snd (@setup X s)
     end).
Proof.
  unfold do_setup. destruct (setup s) as [acts r]. simpl.
  destruct (perform_all extern acts e) as [e' r']. reflexivity.
Qed.






(** ** Neighbour seeding *)



(** ** The CONFIG record and its consumer *)

(** [C7] For every node, [run] logs one CONFIG record at time 0 whose
    payload has the keys [event], [id], [x], [y], [capacity] and [used];
    there is no [name], which the CONFIG branch of the visualizer reads, so
    that branch raises [KeyError] on the record of every node. *)
Theorem config_record_lacks_name :
  forall (X : Type) (n : node) (max_x max_y : Z),
    @announce X n = EventLog (config_record n)
                    :: map (fun net => NetStart (node_id n) (net_name net)) (node_net n) /\
    log_ts (config_record n) = 0%Q /\
    log_category (config_record n) = "CONFIG" /\
    dom (log_payload (config_record n))
    = list_to_set ["event"; "id"; "x"; "y"; "capacity"; "used"] /\
    In "name" Ponsanim.config_keys_read /\
    log_payload (config_record n) !! "name" = None /\
    Ponsanim.on_config max_x max_y (log_payload (config_record n))
    = Raise (KeyError "name").
Proof.
  intros X n max_x max_y.
  split; [reflexivity|]. split; [reflexivity|]. split; [reflexivity|].
  split; [reflexivity|]. split; [simpl; tauto|].
  split; reflexivity.
Qed.

(** ** The contact plan queries *)







(** ** The contact logger *)


Section LoggerFacts.

Context {U X : Type}.
Variable foreign : task X -> Q -> sim_world U -> sim_world U * list (request (task X)).
Variable D : Z.
Variable p : plan.
Variable log0 : list log_record.

Implicit Types (e : env (sim_world U) (task X)).




Lemma logger_env_ready (w0 : sim_world U) : ready (@logger_env U X p w0).
Proof.
  unfold ready, logger_env. simpl. repeat constructor; [discriminate|].
  intros _. simpl. lra.
Qed.


End LoggerFacts.





(** [C5] A contact that starts at time 0: with the event log on, the run of
    the first example scenario over the plan [(0,10), (25,40)] logs DOWN at
    10, UP at 25 and DOWN at 40 for the pair (0,1), and no UP at 0. *)
Theorem contact_starting_at_zero_gets_no_up :
  exists e' : env (sim_world unit) (task unit),
    NetSim.run Scenario.demo_extern Scenario.demo_foreign Scenario.demo_sim 30 50
               Scenario.demo_env = Some (Ok e') /\
    is_logging (world Scenario.demo_env) = true /\
    contacts Scenario.demo_plan = [Contact (0, 10)%Q (0, 1); Contact (25, 40)%Q (0, 1)] /\
    List.filter (fun r => String.eqb (log_category r) "LINK") (event_log (world e'))
    = [link_record 10 "DOWN" (Contact (0, 10)%Q (0, 1));
       link_record 25 "UP" (Contact (25, 40)%Q (0, 1));
       link_record 40 "DOWN" (Contact (25, 40)%Q (0, 1))] /\
    ~ In (link_record 0 "UP" (Contact (0, 10)%Q (0, 1))) (event_log (world e')).
Proof.
  eexists. split; [vm_compute; reflexivity|].
  split; [vm_compute; reflexivity|]. split; [reflexivity|].
  split; [vm_compute; reflexivity|].
  intros H. vm_compute in H.
  repeat (destruct H as [H|H]; [discriminate H|]). exact H.
Qed.

(** ** The statements at work on the example scenario *)

Lemma derived_metrics_at_completion_witness :
  (exists rs',
      Stats.derive_metrics Scenario.demo_stats = Ok rs' /\
      rs' !! "latency_avg" = Some ((21 # 2) / 3)%Q /\
      rs' !! "hops_avg" = Some (7 / 3)%Q /\
      rs' !! "overhead_ratio" = Some ((9 - 3) / 3)%Q /\
      rs' !! "delivery_prob" = Some (3 / 4)%Q) /\
  (exists (e' e1 e2 : env (sim_world unit) (task unit)) rs1,
      NetSim.run Scenario.demo_extern Scenario.demo_foreign Scenario.demo_sim 30 50
                 Scenario.demo_env = Some (Ok e') /\
      perform_all Scenario.demo_extern
                  (run_prelude Scenario.demo_sim (now Scenario.demo_env))
                  Scenario.demo_env = (e1, Ok tt) /\
      run_loop (resume 120 Scenario.demo_foreign) 120 30 50 e1 = Some (Ok e2) /\
      Stats.derive_metrics (routing_stats (world e2)) = Ok rs1 /\
      Stats.drop_raw_sums rs1 = Ok (routing_stats (world e'))).
Proof.
  split.
  - destruct (proj1 derived_metrics_at_completion Scenario.demo_stats
                4%Q 3%Q 9%Q 7%Q (21 # 2)%Q
                ltac:(vm_compute; reflexivity) ltac:(vm_compute; reflexivity)
                ltac:(vm_compute; reflexivity) ltac:(vm_compute; reflexivity)
                ltac:(vm_compute; reflexivity) ltac:(vm_compute; reflexivity)
                ltac:(vm_compute; reflexivity) ltac:(vm_compute; reflexivity))
      as (rs' & H & Hpos & _ & Hprob & _).
    destruct (Hpos ltac:(reflexivity)) as (H1 & H2 & H3).
    exists rs'. repeat split; auto; apply Hprob; reflexivity.
  - assert (H : exists e', NetSim.run Scenario.demo_extern Scenario.demo_foreign
                             Scenario.demo_sim 30 50 Scenario.demo_env = Some (Ok e'))
      by (vm_compute; eexists; reflexivity).
    destruct H as [e' H].
    destruct (proj2 derived_metrics_at_completion _ _ _ _ _ _ _ _ _ H)
      as (e1 & e2 & rs1 & H1 & H2 & H3 & H4).
    exists e', e1, e2, rs1. auto.
Defined.

Lemma raw_sums_dropped_after_run_witness :
  exists (e' e2 : env (sim_world unit) (task unit)),
    NetSim.run Scenario.demo_extern Scenario.demo_foreign Scenario.demo_sim 30 50
               Scenario.demo_env = Some (Ok e') /\
    routing_stats (world e') !! "hops" = None /\
    routing_stats (world e') !! "latency" = None /\
    routing_stats (world e') !! "created" = routing_stats (world e2) !! "created" /\
    net_stats (world e') = net_stats (world e2).
Proof.
  assert (H : exists e', NetSim.run Scenario.demo_extern Scenario.demo_foreign
                           Scenario.demo_sim 30 50 Scenario.demo_env = Some (Ok e'))
    by (vm_compute; eexists; reflexivity).
  destruct H as [e' H].
  destruct (raw_sums_dropped_after_run _ _ _ _ _ _ _ _ _ H)
    as (e1 & e2 & rs1 & _ & _ & _ & H1 & H2 & _ & H3 & H4).
  exists e', e2. repeat split; auto; apply H3; discriminate.
Defined.


Lemma slicing_preserves_outcome_witness :
  (exists r,
      run_single (resume 120 Scenario.demo_foreign) 120 50 Scenario.demo_env = Some r /\
      run_loop (resume 120 Scenario.demo_foreign) 120
               (slices_needed 120 (now Scenario.demo_env)) 50 Scenario.demo_env = Some r) /\
  (exists r,
      run_loop (resume 120 Scenario.demo_foreign) 120 30 20 Scenario.demo_env = Some r /\
      run_single (resume 120 Scenario.demo_foreign) 120 (30 * 20) Scenario.demo_env = Some r) /\
  (exists r,
      run_unsliced Scenario.demo_extern Scenario.demo_foreign Scenario.demo_sim 50
                   Scenario.demo_env = Some r /\
      NetSim.run Scenario.demo_extern Scenario.demo_foreign Scenario.demo_sim
                 (slices_needed 120 (now Scenario.demo_env)) 50 Scenario.demo_env = Some r) /\
  (exists r,
      NetSim.run Scenario.demo_extern Scenario.demo_foreign Scenario.demo_sim 30 20
                 Scenario.demo_env = Some r /\
      run_unsliced Scenario.demo_extern Scenario.demo_foreign Scenario.demo_sim (30 * 20)
                   Scenario.demo_env = Some r).
Proof.
  repeat split.
  - assert (H : exists r, run_single (resume 120 Scenario.demo_foreign) 120 50
                            Scenario.demo_env = Some r)
      by (vm_compute; eexists; reflexivity).
    destruct H as [r H]. exists r. split; [exact H|].
    apply (proj1 (proj1 slicing_preserves_outcome _ _ _ 120 _ demo_env_ready) 50%nat r H).
  - assert (H : exists r, run_loop (resume 120 Scenario.demo_foreign) 120 30 20
                            Scenario.demo_env = Some r)
      by (vm_compute; eexists; reflexivity).
    destruct H as [r H]. exists r. split; [exact H|].
    apply (proj2 (proj1 slicing_preserves_outcome _ _ _ 120 _ demo_env_ready) 30%nat 20%nat r H).
  - assert (H : exists r, run_unsliced Scenario.demo_extern Scenario.demo_foreign
                            Scenario.demo_sim 50 Scenario.demo_env = Some r)
      by (vm_compute; eexists; reflexivity).
    destruct H as [r H]. exists r. split; [exact H|].
    apply (proj1 (proj2 slicing_preserves_outcome _ _ Scenario.demo_extern
                        Scenario.demo_foreign Scenario.demo_sim _ demo_env_ready) 50%nat r H).
  - assert (H : exists r, NetSim.run Scenario.demo_extern Scenario.demo_foreign
                            Scenario.demo_sim 30 20 Scenario.demo_env = Some r)
      by (vm_compute; eexists; reflexivity).
    destruct H as [r H]. exists r. split; [exact H|].
    apply (proj2 (proj2 slicing_preserves_outcome _ _ Scenario.demo_extern
                        Scenario.demo_foreign Scenario.demo_sim _ demo_env_ready)
                 30%nat 20%nat r H).
Defined.




(** * Further properties of the simulator *)

(** ** The node dict of [__init__] *)

Lemma dict_set_fresh (k : Z) (n : node) (d : list (Z * node)) :
  ~ In k (map fst d) -> dict_set k n d = d ++ [(k, n)].
Proof.
  induction d as [|[k' n'] d IH]; intros H; simpl; [reflexivity|].
  simpl in H. destruct (k' =? k) eqn:E.
  - apply Z.eqb_eq in E. tauto.
  - rewrite IH by tauto. reflexivity.
Qed.

Lemma dict_set_keys (k : Z) (n : node) (d : list (Z * node)) :
  In k (map fst d) -> map fst (dict_set k n d) = map fst d.
Proof.
  induction d as [|[k' n'] d IH]; intros H; simpl in *; [contradiction|].
  destruct (k' =? k) eqn:E.
  - apply Z.eqb_eq in E. subst. reflexivity.
  - apply Z.eqb_neq in E. simpl. rewrite IH; [reflexivity|]. tauto.
Qed.

Lemma dict_set_NoDup (k : Z) (n : node) (d : list (Z * node)) :
  NoDup (map fst d) -> NoDup (map fst (dict_set k n d)).
Proof.
  intros H. destruct (in_dec Z.eq_dec k (map fst d)) as [Hin|Hout].
  - now rewrite dict_set_keys.
  - rewrite dict_set_fresh, map_app by exact Hout. simpl.
    apply NoDup_app. split; [exact H|]. split.
    + intros x Hx Hx'. apply list_elem_of_In in Hx. apply list_elem_of_In in Hx'.
      destruct Hx' as [<-|[]]. contradiction.
    + repeat constructor. intros Hx. apply list_elem_of_In in Hx. exact Hx.
Qed.

Lemma dict_set_In (k k' : Z) (n m : node) (d : list (Z * node)) :
  NoDup (map fst d) ->
  In (k', m) (dict_set k n d) <-> (k' = k /\ m = n) \/ (k' <> k /\ In (k', m) d).
Proof.
  induction d as [|[k0 n0] d IH]; intros Hnd; simpl.
  - split.
    + intros [H|[]]. injection H as <- <-. auto.
    + intros [[-> ->]|[_ []]]. auto.
  - simpl in Hnd. apply NoDup_cons in Hnd as [Hk0 Hnd].
    rewrite list_elem_of_In in Hk0.
    destruct (k0 =? k) eqn:E.
    + apply Z.eqb_eq in E. subst k0. simpl. split.
      * intros [H|H]; [injection H as <- <-; auto|].
        right. split; [|auto]. intros ->. apply Hk0.
        apply in_map_iff. exists (k, m). auto.
      * intros [[-> ->]|[Hne [H|H]]]; auto. injection H as -> _. contradiction.
    + apply Z.eqb_neq in E. simpl. rewrite (IH Hnd). split.
      * intros [H|[H|[Hne H]]]; auto. injection H as <- <-. auto.
      * intros [H|[Hne [H|H]]]; auto.
Qed.

Lemma nodes_dict_snoc (ns : list node) (n : node) :
  nodes_dict (ns ++ [n]) = dict_set (node_id n) n (nodes_dict ns).
Proof. unfold nodes_dict. now rewrite fold_left_app. Qed.

Lemma nodes_dict_NoDup (ns : list node) : NoDup (map fst (nodes_dict ns)).
Proof.
  induction ns as [|n ns IH] using rev_ind; [constructor|].
  rewrite nodes_dict_snoc. now apply dict_set_NoDup.
Qed.

(** [X1] The dict [{n.id: n for n in nodes}] has each id once; an id maps
    to the last node of the list that carries it; and for nodes with
    pairwise distinct ids it lists them as given, in order. *)
Theorem nodes_dict_last_wins :
  forall ns : list node,
    NoDup (map fst (nodes_dict ns)) /\
    (forall (id : Z) (n : node),
        In (id, n) (nodes_dict ns) <->
        exists l1 l2, ns = l1 ++ n :: l2 /\ node_id n = id /\
                      Forall (fun m => node_id m <> id) l2) /\
    (NoDup (map node_id ns) ->
     nodes_dict ns = map (fun n => (node_id n, n)) ns).
Proof.
  intros ns. split; [apply nodes_dict_NoDup|]. split.
  - induction ns as [|n0 ns IH] using rev_ind; intros id n.
    + split; [intros []|]. intros (l1 & l2 & H & _). now destruct l1.
    + rewrite nodes_dict_snoc, dict_set_In by apply nodes_dict_NoDup. split.
      * intros [[-> ->]|[Hne H]].
        -- exists ns, []. repeat split; auto.
        -- apply IH in H as (l1 & l2 & -> & Hid & Hl2).
           exists l1, (l2 ++ [n0]). rewrite <- app_assoc. repeat split; auto.
           apply Forall_app. split; [exact Hl2|]. repeat constructor. congruence.
      * intros (l1 & l2 & H & Hid & Hl2).
        destruct l2 as [|m l2 _] using rev_ind.
        -- apply app_inj_tail in H as [-> ->]. auto.
        -- rewrite app_comm_cons, app_assoc in H.
           apply app_inj_tail in H as [-> ->].
           apply Forall_app in Hl2 as [Hl2 Hm].
           apply Forall_inv in Hm. right. split; [congruence|].
           apply IH. eauto.
  - induction ns as [|n0 ns IH] using rev_ind; intros Hnd; [reflexivity|].
    rewrite map_app in Hnd. apply NoDup_app in Hnd as (Hns & Hdisj & _).
    rewrite nodes_dict_snoc, IH by exact Hns.
    rewrite dict_set_fresh, map_app; [reflexivity|].
    rewrite map_map. simpl. intros Hin.
    apply (Hdisj (node_id n0)); apply list_elem_of_In; simpl; auto.
Qed.

Lemma nodes_dict_last_wins_witness :
  nodes_dict Scenario.demo_nodes
  = map (fun n => (node_id n, n)) Scenario.demo_nodes.
Proof.
  apply (proj2 (proj2 (nodes_dict_last_wins Scenario.demo_nodes))).
  apply (bool_decide_unpack _). vm_compute. exact I.
Defined.

(** ** How [setup] ends *)

Lemma setup_all_known {X : Type} (s : netsim) :
  snd (@setup X s) = Ok tt <-> forall gens, msggens s = Some gens -> Forall known_type gens.
Proof.
  rewrite setup_result. destruct (msggens s) as [gens|].
  - destruct (@start_msggens_result X gens)
      as [[Hr Hall]|[Hr (good & bad & rest & -> & Hg & Hb)]]; rewrite Hr.
    + split; [|reflexivity]. intros _ gens' E. now injection E as <-.
    + split; [discriminate|]. intros H. specialize (H _ eq_refl).
      apply Forall_app in H as [_ H]. apply Forall_inv in H. contradiction.
  - split; [|reflexivity]. intros _ gens' E. discriminate.
Qed.

Lemma setup_raises {X : Type} (s : netsim) (err : exn) :
  snd (@setup X s) = Raise err -> err = Exception "unknown message generator type".
Proof.
  rewrite setup_result. destruct (msggens s) as [gens|]; [|discriminate].
  destruct (@start_msggens_result X gens) as [[Hr _]|[Hr _]]; rewrite Hr;
    [discriminate|]. intros H. now injection H as <-.
Qed.

(** The calls of [setup] that reach the mover and the nodes. *)
Lemma external_setup {X : Type} (s : netsim) :
  external (fst (@setup X s))
  = (match movements s with Some (_ :: _) => [MoverStart] | _ => [] end)
    ++ map (fun n => NodeStart (node_id n)) (node_values s)
    ++ match snd (@setup X s) with
       | Ok _ => map (fun n => CalcNeighbors 0 (node_id n)) (node_values s)
       | Raise _ => []
       end.
Proof.
  assert (Hm : external (match movements s with
                         | Some (_ :: _) => [@MoverStart X]
                         | _ => []
                         end)
               = match movements s with Some (_ :: _) => [MoverStart] | _ => [] end).
  { destruct (movements s) as [[|? ?]|]; reflexivity. }
  assert (Hc : external (match config s with
                         | Some cfg => @setup_config X cfg
                         | None => []
                         end) = []).
  { destruct (config s) as [cfg|]; [|reflexivity]. unfold setup_config.
    destruct (truthy _), (truthy _), (truthy _); reflexivity. }
  assert (Hn : external (map (fun n => @NodeStart X (node_id n)) (node_values s))
               = map (fun n => NodeStart (node_id n)) (node_values s)).
  { apply filter_all. intros a H. apply in_map_iff in H as (n & <- & _). reflexivity. }
  assert (Hg : forall gens, external (fst (@start_msggens X gens)) = []).
  { intros gens. apply filter_none. intros a H.
    destruct (start_msggens_processes gens a H) as (g & _ & _ & _ & [->| ->]); reflexivity. }
  assert (Hs : external (map (fun n => @CalcNeighbors X 0 (node_id n)) (node_values s))
               = map (fun n => CalcNeighbors 0 (node_id n)) (node_values s)).
  { apply filter_all. intros a H. apply in_map_iff in H as (n & <- & _). reflexivity. }
  rewrite setup_eq.
  destruct (msggens s) as [gens|].
  - specialize (Hg gens). destruct (start_msggens gens) as [acts [u|x]]; simpl in Hg |- *;
      unfold external in *; rewrite !List.filter_app, Hm, Hc, Hn, Hg, ?Hs;
      rewrite ?app_nil_r; reflexivity.
  - simpl. unfold external in *. rewrite !List.filter_app, Hm, Hc, Hn, Hs. reflexivity.
Qed.

(** [X2] [setup] returns normally exactly when none of the calls it makes
    raises and every generator configuration has a known type.  When it
    raises, either one of its calls raised that exception, or all of them
    returned and it is "unknown message generator type".  When it stops at
    a configuration of unknown type, the generators listed before it have
    their start queued in the engine; the mover and the node classes have
    received the start of the mover (if there are movements) and of every
    node, in order, and no [calc_neighbors] call; when all the types are
    known they receive [calc_neighbors(0, ...)] for every node after
    that. *)
Theorem setup_outcome :
  forall (U X : Type)
         (extern : action X -> Q -> sim_world U -> sim_world U * list (request (task X)))
         (s : netsim) (e : env (sim_world U) (task X)),
    (snd (do_setup extern s e) = Ok tt <->
     snd (perform_all extern (fst (@setup X s)) e) = Ok tt /\
     forall gens, msggens s = Some gens -> Forall known_type gens) /\
    (forall err,
        snd (do_setup extern s e) = Raise err ->
        snd (perform_all extern (fst (@setup X s)) e) = Raise err \/
        (snd (perform_all extern (fst (@setup X s)) e) = Ok tt /\
         err = Exception "unknown message generator type")) /\
    (forall good bad rest,
        msggens s = Some (good ++ bad :: rest) ->
        Forall known_type good -> ~ known_type bad ->
        snd (perform_all extern (fst (@setup X s)) e) = Ok tt ->
        snd (do_setup extern s e) = Raise (Exception "unknown message generator type") /\
        exists ts,
          Forall2 (fun g t => @start_msggen X g = Ok (EnvProcess t)) good ts /\
          Forall (fun t => In (Event (Qred (now e + 0)) URGENT (Resume t))
                              (queue (fst (do_setup extern s e)))) ts) /\
    (forall e' : env (sim_world (list (action X))) (task X),
        (forall good bad rest,
            msggens s = Some (good ++ bad :: rest) ->
            Forall known_type good -> ~ known_type bad ->
            user (world (fst (do_setup recorder s e')))
            = user (world e')
              ++ (match movements s with Some (_ :: _) => [MoverStart] | _ => [] end)
              ++ map (fun n => NodeStart (node_id n)) (node_values s)) /\
        ((forall gens, msggens s = Some gens -> Forall known_type gens) ->
         user (world (fst (do_setup recorder s e')))
         = user (world e')
           ++ (match movements s with Some (_ :: _) => [MoverStart] | _ => [] end)
           ++ map (fun n => NodeStart (node_id n)) (node_values s)
           ++ map (fun n => CalcNeighbors 0 (node_id n)) (node_values s))).
Proof.
  intros U X extern s e.
  assert (Hbad : forall good bad rest,
             msggens s = Some (good ++ bad :: rest) ->
             Forall known_type good -> ~ known_type bad ->
             snd (@setup X s) = Raise (Exception "unknown message generator type")).
  { intros good bad rest Hs Hgood Hb. rewrite setup_result, Hs.
    destruct (@start_msggens_unknown X good rest bad Hgood Hb) as (ts & -> & _). reflexivity. }
  split; [|split; [|split]].
  - rewrite do_setup_eq. cbn [snd].
    destruct (snd (perform_all extern (fst (@setup X s)) e)) as [[]|x].
    + rewrite setup_all_known. tauto.
    + split; [discriminate|]. intros [H _]. discriminate.
  - intros err. rewrite do_setup_eq. cbn [snd].
    destruct (snd (perform_all extern (fst (@setup X s)) e)) as [[]|x]; intros H.
    + right. split; [reflexivity|]. now apply (@setup_raises X s).
    + now left.
  - intros good bad rest Hs Hgood Hb Hcalls.
    rewrite do_setup_eq. cbn [fst snd]. rewrite Hcalls.
    split; [now apply (Hbad good bad rest)|].
    destruct (@start_msggens_unknown X good rest bad Hgood Hb) as (ts & _ & Hts).
    exists ts. split; [exact Hts|].
    destruct (perform_all extern (fst (@setup X s)) e) as [e1 r1] eqn:E.
    simpl in Hcalls. subst r1. cbn [fst].
    clear Hb Hbad. revert Hs. generalize (bad :: rest). intros tl Hs.
    assert (Hpre : forall pre post, good = pre ++ post ->
                     forall ts', Forall2 (fun g t => @start_msggen X g = Ok (EnvProcess t)) post ts' ->
                     Forall (fun t => In (Event (Qred (now e + 0)) URGENT (Resume t)) (queue e1)) ts').
    { intros pre post Hsplit ts' H2. revert pre Hsplit.
      induction H2 as [|g t post ts' Hg H2 IH]; intros pre Hsplit; constructor.
      - apply (perform_all_registers extern (fst (@setup X s)) e e1 t E).
        apply (setup_generators s _ _ Hs). rewrite Hsplit, <- app_assoc. simpl.
        apply start_msggens_prefix; [|exact Hg].
        rewrite Hsplit in Hgood. now apply Forall_app in Hgood as [Hgood _].
      - apply (IH (pre ++ [g])). rewrite Hsplit, <- app_assoc. reflexivity. }
    exact (Hpre [] good eq_refl ts Hts).
  - intros e'.
    destruct (perform_all_recorder (fst (@setup X s)) e') as (e1 & E & _ & Hu).
    rewrite do_setup_eq, E. cbn [fst]. rewrite Hu, external_setup. split.
    + intros good bad rest Hs Hgood Hb. rewrite (Hbad good bad rest Hs Hgood Hb).
      now rewrite app_nil_r.
    + intros Hall. apply (@setup_all_known X s) in Hall. rewrite Hall. reflexivity.
Qed.

Lemma setup_outcome_witness :
  snd (do_setup Scenario.demo_extern Scenario.demo_sim (initial_env tt)) = Ok tt /\
  snd (do_setup Scenario.demo_extern Scenario.range_sim (initial_env tt))
  = Raise (Exception "unknown message generator type") /\
  user (world (fst (@do_setup (list (action unit)) unit recorder Scenario.range_sim
                              (initial_env []))))
  = [NodeStart 0; NodeStart 1] /\
  user (world (fst (@do_setup (list (action unit)) unit recorder Scenario.demo_sim
                              (initial_env []))))
  = [NodeStart 0; NodeStart 1; CalcNeighbors 0 0; CalcNeighbors 0 1].
Proof.
  assert (Hdemo : known_type Scenario.demo_msggen)
    by (right; right; left; vm_compute; reflexivity).
  assert (Hburst : known_type Scenario.burst_msggen)
    by (right; right; right; vm_compute; reflexivity).
  assert (Hodd : ~ known_type Scenario.odd_msggen)
    by (intros [H|[H|[H|H]]]; vm_compute in H; discriminate).
  assert (Hall : forall gens, msggens Scenario.demo_sim = Some gens -> Forall known_type gens).
  { intros gens E. vm_compute in E. injection E as <-. constructor; [exact Hdemo|constructor]. }
  assert (Hgood : Forall known_type [Scenario.demo_msggen; Scenario.burst_msggen])
    by (constructor; [exact Hdemo|constructor; [exact Hburst|constructor]]).
  destruct (setup_outcome unit unit Scenario.demo_extern Scenario.demo_sim (initial_env tt))
    as (Hok & _ & _ & Hrec).
  destruct (setup_outcome unit unit Scenario.demo_extern Scenario.range_sim (initial_env tt))
    as (_ & _ & Hbad & Hrec').
  split; [|split; [|split]].
  - apply Hok. split; [vm_compute; reflexivity|exact Hall].
  - apply (Hbad [Scenario.demo_msggen; Scenario.burst_msggen] Scenario.odd_msggen []
                eq_refl Hgood Hodd). vm_compute. reflexivity.
  - exact (proj1 (Hrec' (initial_env []))
                 [Scenario.demo_msggen; Scenario.burst_msggen] Scenario.odd_msggen []
                 eq_refl Hgood Hodd).
  - exact (proj2 (Hrec (initial_env [])) Hall).
Defined.

(** ** The contact plans of a run and their loggers *)

















(** ** The end-of-run treatment of the statistics, key by key *)

Lemma getitem_None {V : Type} (d : gmap string V) (k : string) :
  d !! k = None -> getitem d k = Raise (KeyError k).
Proof. unfold getitem. now intros ->. Qed.

Lemma delitem_None {V : Type} (d : gmap string V) (k : string) :
  d !! k = None -> delitem d k = Raise (KeyError k).
Proof. unfold delitem. now intros ->. Qed.

(** The first key the end-of-run treatment misses, in the order in which
    the statements of lines 228-247 read [routing_stats]. *)
Lemma finish_routing_stats_cases (rs : gmap string Q) :
  match rs !! "delivered" with
  | None => Stats.finish_routing_stats rs = Raise (KeyError "delivered")
  | Some d =>
      if gt0 d && negb (bool_decide (is_Some (rs !! "latency")))
      then Stats.finish_routing_stats rs = Raise (KeyError "latency")
      else if gt0 d && negb (bool_decide (is_Some (rs !! "hops")))
      then Stats.finish_routing_stats rs = Raise (KeyError "hops")
      else if gt0 d && negb (bool_decide (is_Some (rs !! "relayed")))
      then Stats.finish_routing_stats rs = Raise (KeyError "relayed")
      else match rs !! "created" with
           | None => Stats.finish_routing_stats rs = Raise (KeyError "created")
           | Some c =>
               if negb (bool_decide (is_Some (rs !! "hops")))
               then Stats.finish_routing_stats rs = Raise (KeyError "hops")
               else if negb (bool_decide (is_Some (rs !! "latency")))
               then Stats.finish_routing_stats rs = Raise (KeyError "latency")
               else exists rs', Stats.finish_routing_stats rs = Ok rs' /\
                                rs' !! "delivered" = Some d /\
                                rs' !! "created" = Some c /\
                                rs' !! "hops" = None /\ rs' !! "latency" = None
           end
  end.
Proof.
  unfold Stats.finish_routing_stats, Stats.derive_metrics.
  destruct (rs !! "delivered") as [d|] eqn:Ed.
  2:{ unfold Stats.derive_averages. now rewrite (getitem_None _ _ Ed). }
  assert (Hav : forall rs1, Stats.derive_averages rs = Ok rs1 ->
                  (forall k, k <> "latency_avg" -> k <> "hops_avg" ->
                             k <> "overhead_ratio" -> rs1 !! k = rs !! k) ->
                  match rs !! "created" with
                  | None => (let* rs1 := (let* rs1 := Stats.derive_averages rs in
                                          Stats.derive_delivery_prob rs1) in
                             Stats.drop_raw_sums rs1) = Raise (KeyError "created")
                  | Some c =>
                      if negb (bool_decide (is_Some (rs !! "hops")))
                      then (let* rs1 := (let* rs1 := Stats.derive_averages rs in
                                         Stats.derive_delivery_prob rs1) in
                            Stats.drop_raw_sums rs1) = Raise (KeyError "hops")
                      else if negb (bool_decide (is_Some (rs !! "latency")))
                      then (let* rs1 := (let* rs1 := Stats.derive_averages rs in
                                         Stats.derive_delivery_prob rs1) in
                            Stats.drop_raw_sums rs1) = Raise (KeyError "latency")
                      else exists rs', (let* rs1 := (let* rs1 := Stats.derive_averages rs in
                                                     Stats.derive_delivery_prob rs1) in
                                        Stats.drop_raw_sums rs1) = Ok rs' /\
                                       rs' !! "delivered" = Some d /\
                                       rs' !! "created" = Some c /\
                                       rs' !! "hops" = None /\ rs' !! "latency" = None
                  end).
  { intros rs1 -> Hfr. cbn [bind].
    destruct (rs !! "created") as [c|] eqn:Ec.
    2:{ unfold Stats.derive_delivery_prob.
        rewrite (getitem_None rs1 "created") by (now rewrite Hfr). reflexivity. }
    rewrite (derive_delivery_prob_eq rs1 c d) by (now rewrite Hfr). cbn [bind].
    unfold Stats.drop_raw_sums.
    destruct (rs !! "hops") as [h|] eqn:Eh.
    2:{ rewrite bool_decide_eq_false_2 by (intros [? ?]; discriminate). simpl.
        rewrite delitem_None; [reflexivity|].
        rewrite lookup_insert_ne by done. now rewrite Hfr. }
    rewrite bool_decide_eq_true_2 by (eexists; reflexivity). simpl.
    rewrite (delitem_Some _ "hops" h) by (rewrite lookup_insert_ne by done; now rewrite Hfr).
    cbn [bind].
    destruct (rs !! "latency") as [l|] eqn:El.
    2:{ rewrite bool_decide_eq_false_2 by (intros [? ?]; discriminate). simpl.
        rewrite delitem_None; [reflexivity|].
        rewrite lookup_delete_ne, lookup_insert_ne by done. now rewrite Hfr. }
    rewrite bool_decide_eq_true_2 by (eexists; reflexivity). simpl.
    rewrite (delitem_Some _ "latency" l)
      by (rewrite lookup_delete_ne, lookup_insert_ne by done; now rewrite Hfr).
    eexists. split; [reflexivity|].
    split; [|split; [|split]].
    - rewrite !lookup_delete_ne, lookup_insert_ne by done. now rewrite Hfr.
    - rewrite !lookup_delete_ne, lookup_insert_ne by done. now rewrite Hfr.
    - rewrite lookup_delete_ne by done. apply lookup_delete_eq.
    - apply lookup_delete_eq. }
  destruct (gt0 d) eqn:Eg; simpl.
  - apply gt0_true in Eg.
    destruct (rs !! "latency") as [l|] eqn:El.
    2:{ rewrite bool_decide_eq_false_2 by (intros [? ?]; discriminate). simpl.
        unfold Stats.derive_averages. rewrite (getitem_Some _ _ _ Ed). cbn [bind].
        rewrite (proj2 (gt0_true _) Eg). now rewrite (getitem_None _ _ El). }
    rewrite bool_decide_eq_true_2 by (eexists; reflexivity). simpl.
    destruct (rs !! "hops") as [h|] eqn:Eh.
    2:{ unfold Stats.derive_averages. rewrite (getitem_Some _ _ _ Ed). cbn [bind].
        rewrite (proj2 (gt0_true _) Eg). rewrite (getitem_Some _ _ _ El). cbn [bind].
        rewrite (truediv_pos _ _ Eg). cbn [bind].
        rewrite (getitem_None _ "hops") by (by simplify_map_eq). reflexivity. }
    simpl.
    destruct (rs !! "relayed") as [r|] eqn:Er.
    2:{ rewrite bool_decide_eq_false_2 by (intros [? ?]; discriminate). simpl.
        unfold Stats.derive_averages. rewrite (getitem_Some _ _ _ Ed). cbn [bind].
        rewrite (proj2 (gt0_true _) Eg). rewrite (getitem_Some _ _ _ El). cbn [bind].
        rewrite (truediv_pos _ _ Eg). cbn [bind].
        rewrite (getitem_Some _ "hops" h) by (by simplify_map_eq). cbn [bind].
        rewrite (getitem_Some _ "delivered" d) by (by simplify_map_eq). cbn [bind].
        rewrite (truediv_pos _ _ Eg). cbn [bind].
        rewrite (getitem_None _ "relayed") by (by simplify_map_eq). reflexivity. }
    rewrite bool_decide_eq_true_2 by (eexists; reflexivity). simpl.
    pose proof (Hav _ (derive_averages_pos rs d r h l Ed Er Eh El Eg)) as H.
    apply H.
    intros k K1 K2 K3. by rewrite !lookup_insert_ne.
  - apply gt0_false in Eg.
    apply (Hav _ (derive_averages_nonpos rs d Ed Eg)). auto.
Qed.

(** [X4] The end-of-run treatment of [routing_stats] (lines 228-247)
    succeeds exactly when the dict holds ["delivered"], ["created"],
    ["hops"] and ["latency"], and also ["relayed"] when [delivered > 0].
    Otherwise it raises [KeyError] for a key the dict lacks, and never
    anything else: no division by zero comes out of it. *)
Theorem end_of_run_needs_raw_sums :
  forall rs : gmap string Q,
    ((exists rs', Stats.finish_routing_stats rs = Ok rs') <->
     exists d c, rs !! "delivered" = Some d /\ rs !! "created" = Some c /\
                 is_Some (rs !! "hops") /\ is_Some (rs !! "latency") /\
                 ((0 < d)%Q -> is_Some (rs !! "relayed"))) /\
    (forall err, Stats.finish_routing_stats rs = Raise err ->
                 exists k, err = KeyError k /\ rs !! k = None /\
                           In k ["delivered"; "latency"; "hops"; "relayed"; "created"]).
Proof.
  intros rs. pose proof (finish_routing_stats_cases rs) as H.
  destruct (rs !! "delivered") as [d|] eqn:Ed.
  2:{ rewrite H. split.
      - split; [intros [? ?]; discriminate | intros (? & ? & ? & _); discriminate].
      - intros err E. injection E as <-. exists "delivered". simpl. auto 10. }
  destruct (gt0 d) eqn:Eg; simpl in H.
  - apply gt0_true in Eg.
    destruct (rs !! "latency") as [l|] eqn:El; simpl in H.
    2:{ rewrite H. split.
        - split; [intros [? ?]; discriminate|].
          intros (? & ? & _ & _ & _ & [? ?] & _). discriminate.
        - intros err E. injection E as <-. exists "latency". simpl. auto 10. }
    destruct (rs !! "hops") as [h|] eqn:Eh; simpl in H.
    2:{ rewrite H. split.
        - split; [intros [? ?]; discriminate|].
          intros (? & ? & _ & _ & [? ?] & _). discriminate.
        - intros err E. injection E as <-. exists "hops". simpl. auto 10. }
    destruct (rs !! "relayed") as [r|] eqn:Er; simpl in H.
    2:{ rewrite H. split.
        - split; [intros [? ?]; discriminate|].
          intros (d' & ? & Hd & _ & _ & _ & Hr). injection Hd as <-.
          destruct (Hr Eg). discriminate.
        - intros err E. injection E as <-. exists "relayed". simpl. auto 10. }
    destruct (rs !! "created") as [c|] eqn:Ec.
    2:{ rewrite H. split.
        - split; [intros [? ?]; discriminate | intros (? & ? & _ & ? & _); discriminate].
        - intros err E. injection E as <-. exists "created". simpl. auto 10. }
    destruct H as (rs' & -> & _). split.
    + split; [|eauto]. intros _. exists d, c. repeat split; eauto.
    + intros err E. discriminate.
  - apply gt0_false in Eg.
    destruct (rs !! "created") as [c|] eqn:Ec.
    2:{ rewrite H. split.
        - split; [intros [? ?]; discriminate | intros (? & ? & _ & ? & _); discriminate].
        - intros err E. injection E as <-. exists "created". simpl. auto 10. }
    destruct (rs !! "hops") as [h|] eqn:Eh; simpl in H.
    2:{ rewrite H. split.
        - split; [intros [? ?]; discriminate|].
          intros (? & ? & _ & _ & [? ?] & _). discriminate.
        - intros err E. injection E as <-. exists "hops". simpl. auto 10. }
    destruct (rs !! "latency") as [l|] eqn:El; simpl in H.
    2:{ rewrite H. split.
        - split; [intros [? ?]; discriminate|].
          intros (? & ? & _ & _ & _ & [? ?] & _). discriminate.
        - intros err E. injection E as <-. exists "latency". simpl. auto 10. }
    destruct H as (rs' & -> & _). split.
    + split; [|eauto]. intros _. exists d, c. repeat split; eauto. intros Hd.
      exfalso. apply (Qlt_not_le _ _ Hd Eg).
    + intros err E. discriminate.
Qed.

Lemma end_of_run_needs_raw_sums_witness :
  (exists rs', Stats.finish_routing_stats Scenario.demo_stats = Ok rs') /\
  Stats.finish_routing_stats (delete "relayed" Scenario.demo_stats)
  = Raise (KeyError "relayed").
Proof.
  split.
  - apply (proj1 (end_of_run_needs_raw_sums Scenario.demo_stats)).
    exists 3%Q, 4%Q. repeat split; try (vm_compute; reflexivity);
      try (eexists; vm_compute; reflexivity).
  - destruct (Stats.finish_routing_stats (delete "relayed" Scenario.demo_stats))
      as [rs'|err] eqn:E.
    + assert (H : exists rs', Stats.finish_routing_stats (delete "relayed" Scenario.demo_stats)
                              = Ok rs') by eauto.
      apply (proj1 (end_of_run_needs_raw_sums _)) in H
        as (d & c & Hd & _ & _ & _ & Hr).
      vm_compute in Hd. injection Hd as <-.
      destruct Hr as [r Hr]; [reflexivity|]. vm_compute in Hr. discriminate.
    + vm_compute in E. injection E as <-. reflexivity.
Defined.

(** [X5] The end of [run] cannot be gone through twice.  Once [finish] has
    returned, [finish] on an environment with the statistics it left raises
    [KeyError]: for ["latency"] when [delivered > 0], for ["hops"]
    otherwise.  A second [run()] on the same simulator object whose
    processes leave [routing_stats] alone therefore ends with that error. *)
Theorem finish_not_reentrant :
  forall (U X : Type)
         (extern : action X -> Q -> sim_world U -> sim_world U * list (request (task X)))
         (e e' e2 : env (sim_world U) (task X)),
    finish extern e = Ok e' ->
    routing_stats (world e2) = routing_stats (world e') ->
    exists d, routing_stats (world e) !! "delivered" = Some d /\
              finish extern e2
              = Raise (KeyError (if gt0 d then "latency" else "hops")).
Proof.
  intros U X extern e e' e2 H Hrs. unfold finish in *.
  pose proof (finish_routing_stats_cases (routing_stats (world e))) as H1.
  destruct (Stats.finish_routing_stats (routing_stats (world e))) as [rs1|err] eqn:E1;
    [|discriminate].
  cbn [bind] in H. injection H as <-. simpl in Hrs.
  destruct (routing_stats (world e) !! "delivered") as [d|]; [|discriminate].
  exists d. split; [reflexivity|].
  assert (Hrs1 : rs1 !! "delivered" = Some d /\ is_Some (rs1 !! "created") /\
                 rs1 !! "hops" = None /\ rs1 !! "latency" = None).
  { repeat match type of H1 with
           | (if ?b then _ else _) => destruct b; [discriminate|]
           | match ?o with Some _ => _ | None => _ end => destruct o; [|discriminate]
           end.
    destruct H1 as (rs' & Hrs' & Hd & Hc & Hh & Hl). injection Hrs' as <-.
    repeat split; eauto. }
  destruct Hrs1 as (Hd & [c Hc] & Hh & Hl).
  rewrite Hrs. pose proof (finish_routing_stats_cases rs1) as H2.
  rewrite Hd, Hc, Hh, Hl in H2.
  rewrite (bool_decide_eq_false_2 (is_Some None)) in H2 by (intros [? ?]; discriminate).
  simpl in H2. rewrite andb_true_r in H2.
  destruct (gt0 d); rewrite H2; reflexivity.
Qed.

Lemma finish_not_reentrant_witness :
  exists e' : env (sim_world unit) (task unit),
    finish Scenario.demo_extern (Env 0 [] (World Scenario.demo_stats ∅ true VNone [] tt))
    = Ok e' /\
    finish Scenario.demo_extern e' = Raise (KeyError "latency").
Proof.
  eexists. split; [vm_compute; reflexivity|].
  destruct (finish_not_reentrant unit unit Scenario.demo_extern
              (Env 0 [] (World Scenario.demo_stats ∅ true VNone [] tt)) _ _
              eq_refl eq_refl) as (d & Hd & H).
  vm_compute in Hd. injection Hd as <-. exact H.
Defined.

(** ** The contact logger with the log closed *)

(** [X7] With the event log closed the contact logger ends the first time
    it runs: the run of the loop returns with the world as it was and
    nothing left in the queue. *)
Theorem contact_logger_log_closed :
  forall (U X : Type)
         (foreign : task X -> Q -> sim_world U -> sim_world U * list (request (task X)))
         (D : Z) (p : plan) (w0 : sim_world U),
    0 <= D -> is_logging w0 = false ->
    (exists (fuel : nat) (e' : env (sim_world U) (task X)),
        run_loop (resume D foreign) D (slices_needed D 0) fuel (logger_env p w0)
        = Some (Ok e')) /\
    (forall (slices fuel : nat) (e' : env (sim_world U) (task X)),
        run_loop (resume D foreign) D slices fuel (logger_env p w0) = Some (Ok e') ->
        world e' = w0 /\ queue e' = []).
Proof.
  intros U X foreign D p w0 HD Hoff.
  assert (Hnow : (now (@logger_env U X p w0) < inject_Z D + 1)%Q).
  { simpl. change 0%Q with (inject_Z 0).
    assert (inject_Z 0 <= inject_Z D)%Q by (rewrite <- Zle_Qle; lia). lra. }
  assert (Hq : quiet_before (inject_Z D + 1) (queue (@logger_env U X p w0))).
  { apply ready_quiet; [apply logger_env_ready | exact Hnow]. }
  assert (Hd : drain (resume D foreign) 2 (inject_Z D + 1) (logger_env p w0)
               = Some (Ok (Env 0 [] w0))).
  { assert (Hl : Qltb 0 (inject_Z D + 1) = true) by (apply Qltb_lt; exact Hnow).
    rewrite drain_S. unfold logger_env. cbn [queue ev_time]. rewrite Hl.
    unfold fire. simpl. rewrite Hoff. reflexivity. }
  split.
  - eexists _, _. apply loop_of_single; [apply logger_env_ready | exact Hnow | |].
    + apply slices_needed_enough.
    + rewrite run_drain by auto. rewrite Hd. reflexivity.
  - intros slices fuel e' H.
    apply single_of_loop in H; [|apply logger_env_ready | exact Hnow].
    rewrite run_drain in H by auto.
    destruct (drain (resume D foreign) (slices * fuel) _ _) as [r0|] eqn:E; [|discriminate].
    injection H as H.
    pose proof (drain_more (resume D foreign) _ (slices * fuel + 2) _ _ _ E ltac:(lia)) as H1.
    pose proof (drain_more (resume D foreign) _ (slices * fuel + 2) _ _ _ Hd ltac:(lia)) as H2.
    rewrite H1 in H2. injection H2 as ->. simpl in H. injection H as <-.
    split; reflexivity.
Qed.

Lemma contact_logger_log_closed_witness :
  exists e' : env (sim_world unit) (task unit),
    run_loop (resume 120 Scenario.demo_foreign) 120 30 20
             (logger_env Scenario.demo_plan (initial_world tt)) = Some (Ok e') /\
    world e' = initial_world tt /\ queue e' = [].
Proof.
  destruct (contact_logger_log_closed unit unit Scenario.demo_foreign 120 Scenario.demo_plan
              (initial_world tt) ltac:(lia) eq_refl) as [_ H].
  assert (Hrun : exists e', run_loop (resume 120 Scenario.demo_foreign) 120 30 20
                              (logger_env Scenario.demo_plan (initial_world tt))
                            = Some (Ok e'))
    by (vm_compute; eexists; reflexivity).
  destruct Hrun as [e' Hrun]. exists e'. split; [exact Hrun|]. exact (H _ _ _ Hrun).
Defined.

(** ** The movement and the peers logger *)

Section PrinterFacts.

Context {U X : Type}.
Variable foreign : task X -> Q -> sim_world U -> sim_world U * list (request (task X)).
Variable D : Z.

Implicit Types (e : env (sim_world U) (task X)).

Lemma key_leb_normal (x y : event (task X)) :
  (ev_time x <= ev_time y)%Q -> ev_prio y = NORMAL -> key_leb x y = true.
Proof.
  intros H P. unfold key_leb. rewrite P.
  destruct (Qltb (ev_time x) (ev_time y)) eqn:E; [reflexivity|].
  apply Qltb_ge in E. simpl.
  rewrite (proj2 (Qeq_bool_iff _ _)) by lra. now destruct (ev_prio x).
Qed.

Lemma printers_fire_level e ev q (k : Z) :
  printers_level k (queue e) -> queue e = ev :: q ->
  exists e',
    fire (resume D foreign) ev (Env (ev_time ev) q (world e)) = Continue e' /\
    world e' = world e /\ printers_between k (queue e').
Proof.
  intros (t1 & p1 & b1 & t2 & p2 & b2 & Hq & Ht1 & Ht2 & Hb) Eq.
  rewrite Eq in Hq. injection Hq as -> ->. unfold fire. cbn -[key_leb Qred Qplus].
  change (Qltb 1 0) with false. unfold schedule. cbn -[key_leb Qred Qplus].
  rewrite key_leb_normal; [|simpl; rewrite Qred_correct, Ht1, Ht2; lra|reflexivity].
  eexists. split; [reflexivity|]. split; [reflexivity|].
  exists (Qred (t1 + 1)), NORMAL, true, t2, p2, b2. simpl.
  split; [reflexivity|]. split; [exact Ht2|]. split; [|split; [reflexivity|tauto]].
  rewrite Qred_correct, Ht1, inject_Z_plus. reflexivity.
Qed.

Lemma printers_fire_between e ev q (k : Z) :
  printers_between k (queue e) -> queue e = ev :: q ->
  exists e',
    fire (resume D foreign) ev (Env (ev_time ev) q (world e)) = Continue e' /\
    world e' = world e /\ printers_level (k + 1) (queue e').
Proof.
  intros (t1 & p1 & b1 & t2 & p2 & b2 & Hq & Ht2 & Ht1 & Hb1 & Hb2) Eq.
  rewrite Eq in Hq. injection Hq as -> ->. unfold fire. cbn -[key_leb Qred Qplus].
  change (Qltb 1 0) with false. unfold schedule. cbn -[key_leb Qred Qplus].
  rewrite key_leb_normal;
    [|simpl; rewrite Qred_correct, Ht1, Ht2, inject_Z_plus;
      change (inject_Z 1) with 1%Q; lra|reflexivity].
  eexists. split; [reflexivity|]. split; [reflexivity|].
  exists t1, p1, b1, (Qred (t2 + 1)), NORMAL, true. simpl.
  split; [reflexivity|]. split; [exact Ht1|]. split; [|auto].
  rewrite Qred_correct, Ht2, inject_Z_plus. reflexivity.
Qed.

Lemma printers_due (t : Q) (k : Z) :
  (t == inject_Z k)%Q -> Qltb t (inject_Z D + 1) = if k <=? D then true else false.
Proof.
  intros Ht. destruct (k <=? D) eqn:E.
  - apply Z.leb_le in E. apply Qltb_lt. rewrite Ht.
    change 1%Q with (inject_Z 1). rewrite <- inject_Z_plus, <- Zlt_Qlt. lia.
  - apply Z.leb_gt in E. apply Qltb_ge. rewrite Ht.
    change 1%Q with (inject_Z 1). rewrite <- inject_Z_plus, <- Zle_Qle. lia.
Qed.

Lemma printers_drain (n : nat) :
  forall e (k : Z),
    k <= D + 1 ->
    (printers_level k (queue e) /\ (Z.to_nat (2 * (D + 1 - k)) <= n)%nat) \/
    (printers_between k (queue e) /\ k <= D /\ (Z.to_nat (2 * (D + 1 - k) - 1) <= n)%nat) ->
    exists e',
      drain (resume D foreign) (S n) (inject_Z D + 1) e = Some (Ok e') /\
      world e' = world e /\ printers_level (D + 1) (queue e').
Proof.
  induction n as [|n IH]; intros e k Hk H; rewrite drain_S.
  - destruct H as [[Hl Hr]|[Hb [HkD Hr]]]; [|lia].
    assert (k = D + 1) by lia. subst k.
    pose proof Hl as (t1 & p1 & b1 & t2 & p2 & b2 & Hq & Ht1 & Ht2 & _).
    rewrite Hq.
    rewrite (printers_due (ev_time (Event t1 p1 (Resume (MovementLogger b1)))) (D + 1) Ht1).
    rewrite (proj2 (Z.leb_gt (D + 1) D)) by lia.
    exists e. split; [reflexivity|]. split; [reflexivity|exact Hl].
  - destruct H as [[Hl Hr]|[Hb [HkD Hr]]].
    + pose proof Hl as (t1 & p1 & b1 & t2 & p2 & b2 & Hq & Ht1 & Ht2 & _).
      rewrite Hq.
      rewrite (printers_due (ev_time (Event t1 p1 (Resume (MovementLogger b1)))) k Ht1).
      destruct (k <=? D) eqn:E.
      * apply Z.leb_le in E.
        destruct (printers_fire_level e _ _ k Hl Hq) as (e' & -> & Hw & Hb).
        destruct (IH e' k Hk) as (e'' & Hd & Hw' & Hend); [right; repeat split; auto; lia|].
        exists e''. split; [exact Hd|]. split; [congruence|exact Hend].
      * apply Z.leb_gt in E. assert (k = D + 1) by lia. subst k.
        exists e. split; [reflexivity|]. split; [reflexivity|exact Hl].
    + pose proof Hb as (t1 & p1 & b1 & t2 & p2 & b2 & Hq & Ht2 & Ht1 & _).
      rewrite Hq.
      rewrite (printers_due (ev_time (Event t2 p2 (Resume (PeersLogger b2)))) k Ht2).
      rewrite (proj2 (Z.leb_le k D) HkD).
      destruct (printers_fire_between e _ _ k Hb Hq) as (e' & -> & Hw & Hl).
      destruct (IH e' (k + 1) ltac:(lia)) as (e'' & Hd & Hw' & Hend);
        [left; split; [exact Hl|lia]|].
      exists e''. split; [exact Hd|]. split; [congruence|exact Hend].
Qed.

Lemma printers_env_ready (w0 : sim_world U) : ready (@printers_env U X w0).
Proof.
  unfold ready, printers_env. simpl.
  repeat constructor; try discriminate; intros _; simpl; lra.
Qed.

End PrinterFacts.

(** [X12] The movement logger and the peers logger run for the whole run.
    Started by [setup] and left alone, they make the loop of [NetSim.run]
    return, the world untouched, with both of them still scheduled, for
    time [duration + 1], the movement logger first.  The default
    configuration is one that starts them. *)
Theorem printers_outlive_the_run :
  forall (U X : Type)
         (extern : action X -> Q -> sim_world U -> sim_world U * list (request (task X)))
         (foreign : task X -> Q -> sim_world U -> sim_world U * list (request (task X)))
         (D : Z) (w0 : sim_world U),
    (forall e : env (sim_world U) (task X),
        queue e = [] ->
        perform_all extern (@setup_config X ∅) e
        = (Env (now e)
               [Event (Qred (now e + 0)) URGENT (Resume (MovementLogger false));
                Event (Qred (now e + 0)) URGENT (Resume (PeersLogger false))]
               (set_filter (VList []) (world e)), Ok tt)) /\
    (0 <= D ->
     (exists (fuel : nat) (e' : env (sim_world U) (task X)),
         run_loop (resume D foreign) D (slices_needed D 0) fuel (printers_env w0)
         = Some (Ok e')) /\
     (forall (slices fuel : nat) (e' : env (sim_world U) (task X)),
         run_loop (resume D foreign) D slices fuel (printers_env w0) = Some (Ok e') ->
         world e' = w0 /\
         exists t1 p1 t2 p2,
           queue e' = [Event t1 p1 (Resume (MovementLogger true));
                       Event t2 p2 (Resume (PeersLogger true))] /\
           (t1 == inject_Z D + 1)%Q /\ (t2 == inject_Z D + 1)%Q)).
Proof.
  intros U X extern foreign D w0. split.
  - intros e Hq. unfold setup_config.
    replace (truthy (dict_get (∅ : gmap string value) "movement_logger" (VBool true)))
      with true by (vm_compute; reflexivity).
    replace (truthy (dict_get (∅ : gmap string value) "peers_logger" (VBool true)))
      with true by (vm_compute; reflexivity).
    replace (truthy (dict_get (∅ : gmap string value) "event_logging" (VBool false)))
      with false by (vm_compute; reflexivity).
    replace (dict_get (∅ : gmap string value) "event_filter" (VList []))
      with (VList []) by (vm_compute; reflexivity).
    destruct e as [n q w]. simpl in Hq. subst q.
    cbn -[key_leb Qred Qplus]. unfold schedule. cbn -[key_leb Qred Qplus].
    rewrite key_leb_urgent; [reflexivity|simpl; lra|reflexivity].
  - intros HD.
    assert (Hnow : (now (@printers_env U X w0) < inject_Z D + 1)%Q).
    { simpl. change 0%Q with (inject_Z 0).
      assert (inject_Z 0 <= inject_Z D)%Q by (rewrite <- Zle_Qle; lia). lra. }
    assert (Hq : quiet_before (inject_Z D + 1) (queue (@printers_env U X w0))).
    { apply ready_quiet; [apply printers_env_ready | exact Hnow]. }
    destruct (printers_drain foreign D (Z.to_nat (2 * (D + 1))) (printers_env w0) 0
                ltac:(lia)) as (e1 & Hd & Hw & Hend).
    { left. split.
      - exists 0%Q, URGENT, false, 0%Q, URGENT, false.
        split; [reflexivity|]. split; [reflexivity|]. split; [reflexivity|lia].
      - rewrite Z.sub_0_r. lia. }
    split.
    + eexists _, _. apply loop_of_single; [apply printers_env_ready | exact Hnow | |].
      * apply slices_needed_enough.
      * rewrite run_drain by auto. rewrite Hd. reflexivity.
    + intros slices fuel e' H.
      apply single_of_loop in H; [|apply printers_env_ready | exact Hnow].
      rewrite run_drain in H by auto.
      destruct (drain (resume D foreign) (slices * fuel) _ _) as [r0|] eqn:E; [|discriminate].
      injection H as H.
      pose proof (drain_more (resume D foreign) _
                    (slices * fuel + S (Z.to_nat (2 * (D + 1)))) _ _ _ E ltac:(lia)) as H1.
      pose proof (drain_more (resume D foreign) _
                    (slices * fuel + S (Z.to_nat (2 * (D + 1)))) _ _ _ Hd ltac:(lia)) as H2.
      rewrite H1 in H2. injection H2 as ->. simpl in H. injection H as <-.
      simpl. split; [exact Hw|].
      destruct Hend as (t1 & p1 & b1 & t2 & p2 & b2 & Hq' & Ht1 & Ht2 & Hb).
      destruct Hb as [-> ->]; [lia|].
      exists t1, p1, t2, p2. split; [exact Hq'|].
      rewrite Ht1, Ht2, inject_Z_plus. split; reflexivity.
Qed.

Lemma printers_outlive_the_run_witness :
  exists e' : env (sim_world unit) (task unit),
    run_loop (resume 3 Scenario.demo_foreign) 3 5 20 (printers_env (initial_world tt))
    = Some (Ok e') /\
    world e' = initial_world tt /\
    exists t1 p1 t2 p2,
      queue e' = [Event t1 p1 (Resume (MovementLogger true));
                  Event t2 p2 (Resume (PeersLogger true))] /\
      (t1 == inject_Z 3 + 1)%Q /\ (t2 == inject_Z 3 + 1)%Q.
Proof.
  destruct (printers_outlive_the_run unit unit Scenario.demo_extern Scenario.demo_foreign 3
              (initial_world tt)) as [_ H].
  destruct (H ltac:(lia)) as [_ H'].
  assert (Hrun : exists e', run_loop (resume 3 Scenario.demo_foreign) 3 5 20
                              (printers_env (initial_world tt)) = Some (Ok e'))
    by (vm_compute; eexists; reflexivity).
  destruct Hrun as [e' Hrun]. exists e'. split; [exact Hrun|]. exact (H' _ _ _ Hrun).
Defined.

(** * Further properties of the visualizer *)

Import Ponsanim.

(** ** The store blocks of [draw_node] *)

Lemma range_S (n : nat) :
  range (Z.of_nat (S n)) = range (Z.of_nat n) ++ [Z.of_nat n].
Proof.
  unfold range. rewrite !Nat2Z.id, seq_S, map_app. reflexivity.
Qed.

Lemma draw_blocks_seq (x y u : Z) (m : nat) :
  forall s : nat,
    draw_blocks x y u (map Z.of_nat (seq s m))
    = map (fun i => DrawRectangle (x + 14) (y - 7 * i) (x + 18) (y + 4 - 7 * i)
                                  (if 95 <? u then "red" else "blue"))
          (map Z.of_nat (seq s (Nat.min m (5 - s)))).
Proof.
  induction m as [|m IH]; intros s; [reflexivity|].
  change (map Z.of_nat (seq s (S m))) with (Z.of_nat s :: map Z.of_nat (seq (S s) m)).
  cbn [draw_blocks]. destruct (4 <? Z.of_nat s) eqn:E.
  - apply Z.ltb_lt in E. replace (5 - s)%nat with 0%nat by lia.
    rewrite Nat.min_0_r. reflexivity.
  - apply Z.ltb_ge in E. rewrite IH.
    replace (Nat.min (S m) (5 - s)) with (S (Nat.min m (5 - S s))) by lia.
    simpl. f_equal. f_equal; lia.
Qed.

(** [X8] [draw_node] draws the store of a node as [min(usage // 25 + 1, 5)]
    blocks stacked upwards, 7 pixels apart, red when the usage is above 95
    and blue otherwise: one to four blocks below 100, five from 100 on (the
    comment in the source announces at most four).  It draws no block for a
    usage of 0 or less or an unknown one, and always ends with the circle
    of the node. *)
Theorem draw_node_blocks :
  forall (x y : Z) (name : string) (u : Z),
    let label := if negb (String.eqb name "")
                 then [DrawText (x + 6) (y + 6) name "black"] else [] in
    let color := if 95 <? u then "red" else "blue" in
    let n := if 0 <? u then Z.min (u / 25 + 1) 5 else 0 in
    draw_node x y name (Some u)
    = label
      ++ map (fun i => DrawRectangle (x + 14) (y - 7 * i) (x + 18) (y + 4 - 7 * i) color)
             (range n)
      ++ [DrawCircle x y 8 "blue"] /\
    draw_node x y name None = label ++ [DrawCircle x y 8 "blue"] /\
    length (rectangles (draw_node x y name (Some u))) = Z.to_nat n /\
    (0 < u < 100 -> 1 <= n <= 4) /\ (100 <= u -> n = 5) /\ (u <= 0 -> n = 0).
Proof.
  intros x y name u label color n.
  assert (E : draw_node x y name (Some u)
              = label
                ++ map (fun i => DrawRectangle (x + 14) (y - 7 * i) (x + 18) (y + 4 - 7 * i)
                                               color) (range n)
                ++ [DrawCircle x y 8 "blue"]).
  { unfold draw_node, n. fold label. f_equal. f_equal.
    destruct (0 <? u) eqn:Eu; [|reflexivity]. apply Z.ltb_lt in Eu.
    cbv zeta. unfold range. rewrite draw_blocks_seq. fold color. f_equal. f_equal. f_equal.
    assert (0 <= u / 25) by (apply Z.div_pos; lia). lia. }
  split; [exact E|]. split; [reflexivity|]. split; [|split; [|split]].
  - rewrite E. unfold rectangles, label.
    rewrite !List.filter_app. simpl List.filter at 3. rewrite app_nil_r.
    assert (Hl : List.filter (fun c => match c with DrawRectangle _ _ _ _ _ => true | _ => false end)
                   (if negb (String.eqb name "")
                    then [DrawText (x + 6) (y + 6) name "black"] else []) = []).
    { destruct (negb _); reflexivity. }
    rewrite Hl. simpl app.
    assert (Hr : forall l : list Z,
               List.filter (fun c => match c with DrawRectangle _ _ _ _ _ => true | _ => false end)
                 (map (fun i => DrawRectangle (x + 14) (y - 7 * i) (x + 18) (y + 4 - 7 * i)
                                              color) l)
               = map (fun i => DrawRectangle (x + 14) (y - 7 * i) (x + 18) (y + 4 - 7 * i)
                                             color) l).
    { induction l as [|i l IH]; [reflexivity|]. simpl. now rewrite IH. }
    rewrite Hr. unfold range. now rewrite !length_map, length_seq.
  - intros Hu. unfold n. rewrite (proj2 (Z.ltb_lt 0 u)) by lia.
    assert (0 <= u / 25 < 4) by (split; [apply Z.div_pos; lia | apply Z.div_lt_upper_bound; lia]).
    lia.
  - intros Hu. unfold n. rewrite (proj2 (Z.ltb_lt 0 u)) by lia.
    assert (4 <= u / 25) by (apply Z.div_le_lower_bound; lia). lia.
  - intros Hu. unfold n. now rewrite (proj2 (Z.ltb_ge 0 u)) by lia.
Qed.

(** ** The progress bar *)

Lemma str_mul_one {C : Type} (c : C) (n : Z) :
  str_mul [c] n = repeat c (Z.to_nat n).
Proof.
  unfold str_mul. induction (Z.to_nat n) as [|k IH]; [reflexivity|].
  simpl. now rewrite IH.
Qed.

Lemma progress_loop_ok {C A : Type} (dash : C) (total length : Z) (fill : list C)
    (items : list A) :
  total <> 0 ->
  forall i : Z,
    exists out,
      progress_loop dash total length fill i items = (out, Ok tt) /\
      yielded out = items /\
      printed out
      = map (fun k => str_mul fill (length * k / total)
                      ++ str_mul [dash] (length - length * k / total))
            (map (fun j => i + 1 + Z.of_nat j) (seq 0 (List.length items))).
Proof.
  intros Ht. induction items as [|a items IH]; intros i.
  - exists []. repeat split.
  - simpl progress_loop. unfold printProgressBar at 1.
    rewrite (proj2 (Z.eqb_neq total 0) Ht).
    destruct (IH (i + 1)) as (out & -> & Hy & Hp).
    eexists. split; [reflexivity|]. split.
    + unfold yielded in *. simpl. now rewrite Hy.
    + unfold printed in *. simpl. rewrite Hp, Z.add_0_r. f_equal.
      rewrite <- seq_shift, !map_map. apply map_ext. intros j.
      replace (i + 1 + 1 + Z.of_nat j) with (i + 1 + Z.of_nat (S j)) by lia.
      reflexivity.
Qed.

(** [X9] [progressBar] over an empty iterable raises [ZeroDivisionError]
    before yielding or printing anything.  Over [n > 0] items it yields
    them all in order and prints [n + 1] bars, the [k]-th one (from 0) with
    [length * k // n] fill characters followed by dashes; with a fill of
    one character and [length >= 0], every bar is [length] characters long,
    the first is all dashes and the last all fill. *)
Theorem progressBar_bars :
  forall (C A : Type) (dash c : C) (iterable : list A) (length : Z),
    @progressBar C A dash [] length [c] = ([], Raise ZeroDivisionError) /\
    (iterable <> [] -> 0 <= length ->
     let n := Z.of_nat (List.length iterable) in
     exists out,
       progressBar dash iterable length [c] = (out, Ok tt) /\
       yielded out = iterable /\
       printed out
       = map (fun k => repeat c (Z.to_nat (length * k / n))
                       ++ repeat dash (Z.to_nat (length - length * k / n)))
             (map Z.of_nat (seq 0 (S (List.length iterable)))) /\
       Forall (fun bar => Z.of_nat (List.length bar) = length) (printed out) /\
       head (printed out) = Some (repeat dash (Z.to_nat length)) /\
       List.last (printed out) [] = repeat c (Z.to_nat length)).
Proof.
  intros C A dash c iterable length. split; [reflexivity|].
  intros Hne Hlen n.
  assert (Hn : 0 < n).
  { unfold n. destruct iterable; [contradiction|]. simpl List.length. lia. }
  destruct (progress_loop_ok dash n length [c] iterable ltac:(lia) 0)
    as (out & Hout & Hy & Hp).
  assert (Hbars : printed (Printed (A := A) (str_mul [c] (length * 0 / n)
                             ++ str_mul [dash] (length - length * 0 / n))
                           :: out ++ [Newline])
                  = map (fun k => repeat c (Z.to_nat (length * k / n))
                                  ++ repeat dash (Z.to_nat (length - length * k / n)))
                        (map Z.of_nat (seq 0 (S (List.length iterable))))).
  { unfold printed in *. simpl flat_map. rewrite flat_map_app, Hp. simpl.
    rewrite app_nil_r, !str_mul_one. f_equal.
    rewrite <- seq_shift, !map_map. apply map_ext. intros j.
    rewrite !str_mul_one.
    replace (0 + 1 + Z.of_nat j) with (Z.of_nat (S j)) by lia. reflexivity. }
  eexists. split; [|split; [|split; [exact Hbars|]]].
  - unfold progressBar. fold n. unfold printProgressBar at 1.
    rewrite (proj2 (Z.eqb_neq n 0)) by lia. rewrite Hout. reflexivity.
  - unfold yielded in *. simpl. rewrite flat_map_app, Hy. simpl. now rewrite app_nil_r.
  - rewrite Hbars. split; [|split].
    + apply List.Forall_forall. intros bar Hbar.
      apply in_map_iff in Hbar as (k & <- & Hk).
      apply in_map_iff in Hk as (j & <- & Hj). apply in_seq in Hj.
      rewrite length_app, !repeat_length.
      assert (0 <= length * Z.of_nat j / n <= length).
      { split; [apply Z.div_pos; nia|]. apply Z.div_le_upper_bound; nia. }
      lia.
    + simpl. rewrite Z.mul_0_r, Z.div_0_l by lia. now rewrite Z.sub_0_r.
    + rewrite seq_S, !map_app. simpl map at 2. simpl map at 3.
      rewrite last_last. fold n. rewrite Z.div_mul by lia.
      rewrite Z.sub_diag. simpl. now rewrite app_nil_r.
Qed.

Lemma progressBar_bars_witness :
  exists out,
    progressBar "-"%char [0; 100; 200] 6 ["#"%char] = (out, Ok tt) /\
    yielded out = [0; 100; 200] /\
    Forall (fun bar => Z.of_nat (List.length bar) = 6) (printed out).
Proof.
  destruct (proj2 (progressBar_bars ascii Z "-"%char "#"%char [0; 100; 200] 6))
    as (out & H1 & H2 & _ & H3 & _); [discriminate | lia |].
  exists out. auto.
Defined.

(** ** Active links *)

Lemma pair_eqb_eq (u v : Z * Z) : pair_eqb u v = true <-> u = v.
Proof.
  destruct u as [a b], v as [c d]. unfold pair_eqb. simpl.
  rewrite andb_true_iff, !Z.eqb_eq. split; [intros [-> ->]; reflexivity|].
  intros H. injection H as -> ->. auto.
Qed.

Lemma link_style_green (active_links : list (Z * Z)) (edge : Z * Z) :
  link_style active_links edge = ("green", 4) <->
  In (sorted_pair (fst edge) (snd edge)) active_links.
Proof.
  unfold link_style. cbv zeta. destruct (existsb _ active_links) eqn:E.
  - split; [intros _|reflexivity].
    apply existsb_exists in E as (l & Hl & E). apply pair_eqb_eq in E. now subst.
  - split; [discriminate|]. intros H.
    assert (Ht : existsb (pair_eqb (sorted_pair (fst edge) (snd edge))) active_links = true).
    { apply existsb_exists. eexists. split; [exact H|]. now apply pair_eqb_eq. }
    congruence.
Qed.

Lemma links_add_In (link l : Z * Z) (active_links : list (Z * Z)) :
  In l (links_add link active_links) <-> In l active_links \/ l = link.
Proof.
  unfold links_add. destruct (existsb _ active_links) eqn:E.
  - split; [auto|]. intros [H| ->]; [exact H|].
    apply existsb_exists in E as (l' & Hl' & E). apply pair_eqb_eq in E. now subst.
  - rewrite in_app_iff. simpl. split; [intros [H|[<-|[]]]; auto | intros [H| ->]; auto].
Qed.

Lemma sorted_pair_same (a b c d : Z) :
  sorted_pair a b = sorted_pair c d <-> (a = c /\ b = d) \/ (a = d /\ b = c).
Proof.
  unfold sorted_pair. destruct (b <? a) eqn:E1, (d <? c) eqn:E2;
    rewrite ?Z.ltb_lt, ?Z.ltb_ge in *; split;
    try (intros H; injection H as -> ->; auto; fail);
    try (intros [[-> ->]|[-> ->]]; auto; f_equal; lia).
Qed.

(** [X10] Bundle traffic colours a link whatever its direction.  A ROUTER
    record with event TX or RX between [src] and [dst] makes
    [draw_network] draw the edges [(src, dst)] and [(dst, src)] green and
    4 wide, and changes the style of no edge between other nodes; a ROUTER
    record with another event changes nothing. *)
Theorem router_traffic_colours_link :
  forall (event : gmap string value) (active_links : list (Z * Z))
         (ev vsrc vdst : value) (src dst : Z),
    event !! "event" = Some ev ->
    event !! "src" = Some vsrc -> int_ vsrc = Ok src ->
    event !! "dst" = Some vdst -> int_ vdst = Ok dst ->
    (is_str ev "TX" || is_str ev "RX" = true ->
     exists active_links',
       on_router event active_links = Ok active_links' /\
       link_style active_links' (src, dst) = ("green", 4) /\
       link_style active_links' (dst, src) = ("green", 4) /\
       forall a b,
         link_style active_links' (a, b)
         = if (pair_eqb (a, b) (src, dst) || pair_eqb (a, b) (dst, src))%bool
           then ("green", 4) else link_style active_links (a, b)) /\
    (is_str ev "TX" || is_str ev "RX" = false ->
     on_router event active_links = Ok active_links).
Proof.
  intros event active_links ev vsrc vdst src dst Hev Hs His Hd Hid. split.
  - intros Hk.
    assert (Hr : on_router event active_links
                 = Ok (links_add (sorted_pair src dst) active_links)).
    { unfold on_router. rewrite (getitem_Some _ _ _ Hev). cbn [bind].
      destruct (is_str ev "TX") eqn:E1; cbn [bind].
      - rewrite (getitem_Some _ _ _ Hs). cbn [bind]. rewrite His. cbn [bind].
        rewrite (getitem_Some _ _ _ Hd). cbn [bind]. rewrite Hid. reflexivity.
      - simpl in Hk. rewrite Hk.
        rewrite (getitem_Some _ _ _ Hs). cbn [bind]. rewrite His. cbn [bind].
        rewrite (getitem_Some _ _ _ Hd). cbn [bind]. rewrite Hid. reflexivity. }
    assert (Hall : forall a b,
               link_style (links_add (sorted_pair src dst) active_links) (a, b)
               = if (pair_eqb (a, b) (src, dst) || pair_eqb (a, b) (dst, src))%bool
                 then ("green", 4) else link_style active_links (a, b)).
    { intros a b.
      destruct (pair_eqb (a, b) (src, dst) || pair_eqb (a, b) (dst, src))%bool eqn:E.
      - apply link_style_green. apply links_add_In. right. simpl.
        apply sorted_pair_same. apply orb_true_iff in E as [E|E];
          apply pair_eqb_eq in E; injection E as -> ->; auto.
      - apply orb_false_iff in E as [E1 E2].
        assert (Hne : sorted_pair a b <> sorted_pair src dst).
        { intros H. apply sorted_pair_same in H as [[-> ->]|[-> ->]].
          - rewrite (proj2 (pair_eqb_eq _ _) eq_refl) in E1. discriminate.
          - rewrite (proj2 (pair_eqb_eq _ _) eq_refl) in E2. discriminate. }
        destruct (link_style active_links (a, b)) as [col w] eqn:El.
        unfold link_style in *. cbv zeta in *. simpl fst in *. simpl snd in *.
        assert (Hx : existsb (pair_eqb (sorted_pair a b))
                       (links_add (sorted_pair src dst) active_links)
                     = existsb (pair_eqb (sorted_pair a b)) active_links).
        { apply eq_true_iff_eq. rewrite !existsb_exists. split.
          - intros (l & Hl & E). apply links_add_In in Hl as [Hl| ->]; [eauto|].
            apply pair_eqb_eq in E. contradiction.
          - intros (l & Hl & E). exists l. split; [|exact E].
            apply links_add_In. auto. }
        rewrite Hx. exact El. }
    eexists. split; [exact Hr|]. split; [|split; [|exact Hall]].
    + rewrite Hall, (proj2 (pair_eqb_eq _ _) eq_refl). reflexivity.
    + rewrite Hall, (proj2 (pair_eqb_eq (dst, src) (dst, src)) eq_refl), orb_true_r.
      reflexivity.
  - intros Hk. apply orb_false_iff in Hk as [E1 E2].
    unfold on_router. rewrite (getitem_Some _ _ _ Hev). cbn [bind].
    rewrite E1, E2. reflexivity.
Qed.

Lemma router_traffic_colours_link_witness :
  exists active_links',
    on_router (list_to_map [("event", VStr "RX"); ("src", VStr "3"); ("dst", VInt 1)]) []
    = Ok active_links' /\
    link_style active_links' (3, 1) = ("green", 4) /\
    link_style active_links' (1, 3) = ("green", 4).
Proof.
  destruct (router_traffic_colours_link
              (list_to_map [("event", VStr "RX"); ("src", VStr "3"); ("dst", VInt 1)])
              [] (VStr "RX") (VStr "3") (VInt 1) 3 1) as [H _];
    try (vm_compute; reflexivity).
  destruct (H eq_refl) as (l & H1 & H2 & H3 & _).
  exists l. auto.
Defined.

(** ** LINK records in the visualizer *)

Lemma contact_eqb_eq (c d : contact) : contact_eqb c d = true <-> c = d.
Proof.
  destruct c as [t n], d as [t' n']. unfold contact_eqb. simpl.
  rewrite andb_true_iff, !pair_eqb_eq. split; [intros [-> ->]; reflexivity|].
  intros H. injection H as -> ->. auto.
Qed.

Lemma list_remove_length (c : contact) (l : list contact) :
  In c l -> S (length (list_remove c l)) = length l.
Proof.
  induction l as [|x l IH]; intros H; [contradiction|]. simpl.
  destruct (contact_eqb x c) eqn:E; [reflexivity|].
  destruct H as [->|H]; [|simpl; now rewrite IH].
  rewrite (proj2 (contact_eqb_eq c c) eq_refl) in E. discriminate.
Qed.

Lemma list_remove_last (c : contact) (l : list contact) :
  ~ In c l -> list_remove c (l ++ [c]) = l.
Proof.
  induction l as [|x l IH]; intros H; simpl.
  - now rewrite (proj2 (contact_eqb_eq c c) eq_refl).
  - destruct (contact_eqb x c) eqn:E.
    + apply contact_eqb_eq in E. subst. simpl in H. tauto.
    + rewrite IH; [reflexivity|]. simpl in H. tauto.
Qed.

Lemma close_contacts_length (rounds : nat) (ts : Z) (nodes : Z * Z) :
  forall (idx : nat) (cs : list contact),
    length (close_contacts rounds idx ts nodes cs) = length cs.
Proof.
  induction rounds as [|rounds IH]; intros idx cs; [reflexivity|]. simpl.
  destruct (nth_error cs idx) as [c|] eqn:E; [|reflexivity].
  destruct (open_for nodes c); [|apply IH].
  rewrite IH, length_app. simpl.
  rewrite Nat.add_1_r. apply list_remove_length. eapply nth_error_In. exact E.
Qed.

Lemma close_contacts_S (rounds idx : nat) (ts : Z) (nodes : Z * Z) (cs : list contact) :
  close_contacts (S rounds) idx ts nodes cs
  = match nth_error cs idx with
    | None => cs
    | Some c =>
        if open_for nodes c
        then close_contacts rounds (S idx) ts nodes
               (list_remove c cs ++ [Contact (c_start c, ts) nodes])
        else close_contacts rounds (S idx) ts nodes cs
    end.
Proof. reflexivity. Qed.

(** Elements that are not open for the pair are passed over. *)
Lemma close_contacts_skip (ts : Z) (nodes : Z * Z) (pre : list contact) :
  Forall (fun c => open_for nodes c = false) pre ->
  forall (rounds : nat) (done rest : list contact),
    close_contacts (length pre + rounds) (length done) ts nodes (done ++ pre ++ rest)
    = close_contacts rounds (length done + length pre) ts nodes (done ++ pre ++ rest).
Proof.
  induction 1 as [|c pre Hc _ IH]; intros rounds done rest.
  - now rewrite Nat.add_0_r.
  - change (length (c :: pre) + rounds)%nat with (S (length pre + rounds)).
    rewrite close_contacts_S.
    change ((c :: pre) ++ rest) with (c :: pre ++ rest).
    rewrite nth_error_app2, Nat.sub_diag by lia. cbn [nth_error]. rewrite Hc.
    specialize (IH rounds (done ++ [c]) rest).
    rewrite length_app, <- !app_assoc in IH. cbn [length app] in IH.
    rewrite Nat.add_1_r in IH. rewrite IH. cbn [length]. f_equal. lia.
Qed.

(** [X11] What a LINK DOWN record does to the contacts collected so far.
    It keeps their number.  With no open contact of the pair it changes
    nothing, so a DOWN without its UP is dropped.  UP at [t1] followed by
    DOWN at [t2], with no other open contact of the pair, leaves one closed
    contact [(t1, t2)] at the end of the list and no open one. *)
Theorem link_down_closes_open_contact :
  forall (nodes : Z * Z) (t1 t2 : Z) (cs : list contact),
    length (link_down t2 nodes cs) = length cs /\
    (Forall (fun c => open_for nodes c = false) cs ->
     link_down t2 nodes cs = cs /\
     link_down t2 nodes (link_up t1 nodes cs) = cs ++ [Contact (t1, t2) nodes]).
Proof.
  intros nodes t1 t2 cs. split; [apply close_contacts_length|].
  intros Hcs.
  assert (Hopen : open_for nodes (Contact (t1, -1) nodes) = true).
  { unfold open_for. simpl. now rewrite (proj2 (pair_eqb_eq nodes nodes) eq_refl). }
  split.
  - unfold link_down.
    pose proof (close_contacts_skip t2 nodes cs Hcs 0 [] []) as H.
    simpl in H. rewrite Nat.add_0_r, app_nil_r in H. exact H.
  - unfold link_down, link_up. rewrite length_app. simpl length.
    pose proof (close_contacts_skip t2 nodes cs Hcs 1 [] [Contact (t1, -1) nodes]) as H.
    cbn [length app Nat.add] in H. rewrite H, close_contacts_S.
    rewrite nth_error_app2, Nat.sub_diag by lia. cbn [nth_error]. rewrite Hopen.
    cbn [close_contacts c_start timespan fst].
    rewrite list_remove_last; [reflexivity|].
    intros Hin. rewrite List.Forall_forall in Hcs. specialize (Hcs _ Hin). congruence.
Qed.

Lemma link_down_closes_open_contact_witness :
  link_down 10 (0, 1) [Contact (3, 8) (0, 1); Contact (5, -1) (1, 2)]
  = [Contact (3, 8) (0, 1); Contact (5, -1) (1, 2)] /\
  link_down 40 (0, 1) (link_up 25 (0, 1) [Contact (3, 8) (0, 1); Contact (5, -1) (1, 2)])
  = [Contact (3, 8) (0, 1); Contact (5, -1) (1, 2); Contact (25, 40) (0, 1)].
Proof.
  apply (proj2 (link_down_closes_open_contact (0, 1) 25 40
                  [Contact (3, 8) (0, 1); Contact (5, -1) (1, 2)])).
  repeat constructor.
Defined.
